(** * Student risk dashboard: the risk-prediction pipeline

    A shallow embedding of the computational core of the dashboard pages
    [1_Overview.py] and [3_Predictions.py]: the sidebar filter, the
    one-hot encoding with schema alignment, the risk score derived from a
    predicted grade, and the per-school aggregation.

    Conventions of the embedding
    - dataset columns are integer valued ([Z]); predicted grades and the
      scores derived from them are exact rationals ([Q]), so the theorems
      speak about the arithmetic of the expressions, free of rounding;
      equality of scores is [Qeq] ([==]);
    - a missing value (pandas NaN) is [None];
    - an exception raised by pandas or by Python is an explicit error
      value of type [PyError]. *)

From Stdlib Require Import List String Ascii Bool ZArith QArith Qminmax Lia Lqa.
From Stdlib Require Import Sorted.
Import ListNotations.

Local Open Scope string_scope.
Local Open Scope list_scope.
Local Open Scope Q_scope.

(** ** Scalar helpers: comparison, [max], [min], [clip] *)

(** [x < y] on numbers, as a boolean. *)
Definition Qltb (x y : Q) : bool :=
  match x ?= y with
  | Lt => true
  | _ => false
  end.

(** Python's builtin [max(a, b)]: the first argument unless the second
    is strictly greater. *)
Definition py_max (a b : Q) : Q := if Qltb a b then b else a.

(** Python's builtin [min(a, b)]: the first argument unless the second
    is strictly smaller. *)
Definition py_min (a b : Q) : Q := if Qltb b a then b else a.

(** [Series.clip(lower=lo)], on one element. *)
Definition clip_lower (x lo : Q) : Q := if Qltb x lo then lo else x.

(** [Series.clip(upper=hi)], on one element. *)
Definition clip_upper (x hi : Q) : Q := if Qltb hi x then hi else x.

(** [Series.clip(lo, hi)], on one element: lower bound first, then the
    upper bound. *)
Definition clip (x lo hi : Q) : Q := clip_upper (clip_lower x lo) hi.

(** ** Risk model: score and flag derived from a predicted grade *)

(** Cohort path ([3_Predictions.py], lines 87-89), for one record:
    [((10 - predicted_G3).clip(lower=0) / 10).clip(0, 1)]. *)
Definition risk_probability (predicted_G3 : Q) : Q :=
  clip (clip_lower (10 - predicted_G3) 0 / 10) 0 1.

(** What-if path ([3_Predictions.py], line 171):
    [max(0, min((10 - predicted_grade) / 10, 1))]. *)
Definition risk_prob (predicted_grade : Q) : Q :=
  py_max 0 (py_min ((10 - predicted_grade) / 10) 1).

(** Cohort path, line 91: [filtered["predicted_G3"] < 10]; the what-if
    path branches on the same test (line 173). *)
Definition at_risk (predicted_G3 : Q) : bool := Qltb predicted_G3 10.

(** The clamp of the specification: [x] limited to the interval
    [[lo, hi]]. This definition follows the specification's wording and is
    what the two expressions of the code are compared with. *)
Definition clamp_spec (x lo hi : Q) : Q := Qmax lo (Qmin x hi).

(** ** Errors and missing values *)

(** The exceptions that the modelled pandas and Python operations raise. *)
Inductive PyError : Type :=
  | TypeError
  | ValueError
  | IndexError.

(** The outcome of an operation that may raise. *)
Inductive result (A : Type) : Type :=
  | Ok (a : A)
  | Raise (e : PyError).

Arguments Ok {A} a.
Arguments Raise {A} e.

Definition bind {A B : Type} (r : result A) (k : A -> result B) : result B :=
  match r with
  | Ok a => k a
  | Raise e => Raise e
  end.

Notation "x <- r ;; k" := (bind r (fun x => k))
  (at level 61, r at next level, right associativity).

(** A school label: the full name, or missing (NaN) when the school code
    is not a key of the mapping. *)
Definition label : Type := option string.

(** Equality of labels as [isin] and [unique] see it: two missing values
    match each other. *)
Definition label_eqb (a b : label) : bool :=
  match a, b with
  | Some x, Some y => String.eqb x y
  | None, None => true
  | _, _ => false
  end.

(** ** Series operations *)

Section Series.
Context {A : Type} (eqb : A -> A -> bool).

(** [col.isin(values)]: element-wise membership. *)
Definition isin (col values : list A) : list bool :=
  map (fun x => existsb (eqb x) values) col.

(** [col.unique()]: the distinct values in order of first appearance. *)
Fixpoint unique_from (seen col : list A) : list A :=
  match col with
  | [] => []
  | x :: rest =>
      if existsb (eqb x) seen then unique_from seen rest
      else x :: unique_from (x :: seen) rest
  end.

Definition unique (col : list A) : list A := unique_from [] col.
End Series.

(** [a & b] on two boolean series over the same index. *)
Fixpoint series_and (a b : list bool) : list bool :=
  match a, b with
  | x :: a', y :: b' => (x && y) :: series_and a' b'
  | _, _ => []
  end.

(** [col >= k] on an integer series. *)
Definition series_ge (col : list Z) (k : Z) : list bool :=
  map (fun x => (k <=? x)%Z) col.

(** [col < k] on an integer series. *)
Definition series_lt (col : list Z) (k : Z) : list bool :=
  map (fun x => (x <? k)%Z) col.

(** [df[mask]]: the rows at which the mask is true, in order. *)
Fixpoint boolean_index {A : Type} (df : list A) (mask : list bool) : list A :=
  match df, mask with
  | r :: df', m :: mask' =>
      if m then r :: boolean_index df' mask' else boolean_index df' mask'
  | _, _ => []
  end.

(** [col.min()] on an integer series; missing on an empty series. *)
Fixpoint series_min (col : list Z) : option Z :=
  match col with
  | [] => None
  | x :: rest =>
      match series_min rest with
      | None => Some x
      | Some m => Some (Z.min x m)
      end
  end.

(** [int(v)]: raises [ValueError] on NaN. *)
Definition py_int (v : option Z) : result Z :=
  match v with
  | Some z => Ok z
  | None => Raise ValueError
  end.

Definition series_sum (col : list Q) : Q := fold_right Qplus 0 col.

(** [col.mean()]: NaN on an empty series. *)
Definition series_mean (col : list Q) : option Q :=
  match col with
  | [] => None
  | _ => Some (series_sum col / inject_Z (Z.of_nat (List.length col)))
  end.

(** A boolean read as a number, as [mean] and [sum] do. *)
Definition bool_to_Q (b : bool) : Q := if b then 1 else 0.

(** [scalar * 100] on a possibly missing number. *)
Definition times_100 (v : option Q) : option Q :=
  option_map (fun x => x * 100) v.

(** ** Sorting strings *)

Fixpoint insert_sorted (s : string) (l : list string) : list string :=
  match l with
  | [] => [s]
  | h :: t => if String.leb s h then s :: l else h :: insert_sorted s t
  end.

(** [sorted(l)] on a list of strings. *)
Definition sorted_strings (l : list string) : list string :=
  fold_right insert_sorted [] l.

(** The present values of a series of labels. *)
Fixpoint dropna (l : list label) : list string :=
  match l with
  | [] => []
  | Some s :: rest => s :: dropna rest
  | None :: rest => dropna rest
  end.

Definition is_present (x : label) : bool :=
  match x with
  | Some _ => true
  | None => false
  end.

Definition is_missing (x : label) : bool := negb (is_present x).

(** [sorted(l)] on a list of labels. A missing value is a float NaN:
    comparing it with a string raises [TypeError], which happens as soon
    as the list holds both kinds; among NaNs every comparison is false
    and the order is kept. *)
Definition sorted_labels (l : list label) : result (list label) :=
  if forallb is_present l
  then Ok (map Some (sorted_strings (dropna l)))
  else if forallb is_missing l
  then Ok l
  else Raise TypeError.

(** ** Data loader *)

(** One row of the raw dataset, with the columns that the Overview and
    Predictions pages read by name. The dataset's further columns, which
    these pages only pass on to the encoder, are left out. *)
Record RawRecord : Type := mkRaw {
  raw_school : string;
  raw_sex : string;
  raw_studytime : Z;
  raw_failures : Z;
  raw_health : Z;
  raw_absences : Z;
  raw_G1 : Z;
  raw_G2 : Z;
  raw_G3 : Z
}.

(** One row of [df] as [load_student_data] returns it: the raw columns
    and the derived [school_name]. *)
Record StudentRecord : Type := mkStudent {
  school : string;
  sex : string;
  studytime : Z;
  failures : Z;
  health : Z;
  absences : Z;
  G1 : Z;
  G2 : Z;
  G3 : Z;
  school_name : label
}.

(** The dict given to [df["school"].map]: a code outside it maps to a
    missing label. *)
Definition school_map (code : string) : label :=
  if String.eqb code "GP" then Some "Gabriel Pereira"
  else if String.eqb code "MS" then Some "Mousinho da Silveira"
  else None.

Definition load_student_data (raw : list RawRecord) : list StudentRecord :=
  map (fun r =>
         mkStudent (raw_school r) (raw_sex r) (raw_studytime r)
           (raw_failures r) (raw_health r) (raw_absences r)
           (raw_G1 r) (raw_G2 r) (raw_G3 r) (school_map (raw_school r)))
      raw.

(** ** Filter engine *)

(** The values of the three sidebar widgets. *)
Record FilterCriteria : Type := mkCriteria {
  selected_school : list label;
  selected_gender : list string;
  selected_studytime : Z
}.

(** The boolean mask of the filter: the conjunction of the three
    element-wise tests. *)
Definition filter_mask (df : list StudentRecord) (c : FilterCriteria)
  : list bool :=
  series_and
    (series_and
       (isin label_eqb (map school_name df) (selected_school c))
       (isin String.eqb (map sex df) (selected_gender c)))
    (series_ge (map studytime df) (selected_studytime c)).

(** [filtered = df[(...isin(selected_school)) & (...isin(selected_gender))
    & (df["studytime"] >= selected_studytime)]]. *)
Definition filtered (df : list StudentRecord) (c : FilterCriteria)
  : list StudentRecord :=
  boolean_index df (filter_mask df c).

(** The widgets' default values: every distinct school label and gender,
    sorted, and the smallest study time. *)
Definition default_criteria (df : list StudentRecord) : result FilterCriteria :=
  schools <- sorted_labels (unique label_eqb (map school_name df)) ;;
  let genders := sorted_strings (unique String.eqb (map sex df)) in
  lowest <- py_int (series_min (map studytime df)) ;;
  Ok (mkCriteria schools genders lowest).

(** The filter of the specification, in its words: a record is kept when
    its school label is among the selected schools, its gender among the
    selected genders, and its study time at least the minimum. *)
Definition satisfies (c : FilterCriteria) (r : StudentRecord) : Prop :=
  In (school_name r) (selected_school c) /\
  In (sex r) (selected_gender c) /\
  (selected_studytime c <= studytime r)%Z.

Definition satisfiesb (c : FilterCriteria) (r : StudentRecord) : bool :=
  existsb (label_eqb (school_name r)) (selected_school c) &&
  existsb (String.eqb (sex r)) (selected_gender c) &&
  (selected_studytime c <=? studytime r)%Z.

Definition filter_spec (c : FilterCriteria) (df : list StudentRecord)
  : list StudentRecord :=
  List.filter (satisfiesb c) df.

(** [l1] is a subsequence of [l2]: the elements of [l1] occur in [l2] in
    the same order. *)
Inductive Subseq {A : Type} : list A -> list A -> Prop :=
  | Subseq_nil : Subseq [] []
  | Subseq_skip (x : A) (l1 l2 : list A) :
      Subseq l1 l2 -> Subseq l1 (x :: l2)
  | Subseq_keep (x : A) (l1 l2 : list A) :
      Subseq l1 l2 -> Subseq (x :: l1) (x :: l2).

(** ** Overview page: key performance indicators *)

Record OverviewKPIs : Type := mkOverviewKPIs {
  total_students : nat;
  avg_grade : option Q;
  at_risk_pct : option Q
}.

(** [1_Overview.py], lines 64-66, on the filtered cohort. *)
Definition overview_kpis (cohort : list StudentRecord) : OverviewKPIs :=
  mkOverviewKPIs
    (List.length cohort)
    (series_mean (map inject_Z (map G3 cohort)))
    (times_100 (series_mean (map bool_to_Q (series_lt (map G3 cohort) 10)))).

(** ** Feature encoder *)

(** A column of a frame, by dtype: integers, objects (strings, possibly
    missing) or booleans. *)
Inductive column : Type :=
  | IntCol (values : list Z)
  | ObjCol (values : list (option string))
  | BoolCol (values : list bool).

(** A data frame, column by column: the length of its index and its
    named columns in order. *)
Record Frame : Type := mkFrame {
  nrows : nat;
  cols : list (string * column)
}.

(** [frame.columns] *)
Definition columns (f : Frame) : list string := map fst (cols f).

(** The first column of a given name. *)
Fixpoint get_column (name : string) (l : list (string * column))
  : option column :=
  match l with
  | [] => None
  | (n, c) :: rest => if String.eqb name n then Some c else get_column name rest
  end.

(** The indicator columns of one object column, [drop_first=True]: the
    levels are the sorted distinct present values, the first level is the
    reference category and gets no column, and each other level gets the
    column [name_level]. A column with a single level, or none, yields
    no column at all. *)
Definition dummies_1d (name : string) (values : list (option string))
  : list (string * column) :=
  let levels := sorted_strings (unique String.eqb (dropna values)) in
  map (fun level =>
         (String.append name (String.append "_" level),
          BoolCol (map (fun v => label_eqb v (Some level)) values)))
      (tl levels).

(** The columns that are not encoded, in their order. *)
Fixpoint passthrough (l : list (string * column)) : list (string * column) :=
  match l with
  | [] => []
  | (_, ObjCol _) :: rest => passthrough rest
  | c :: rest => c :: passthrough rest
  end.

(** The indicator columns of every object column, in their order. *)
Fixpoint all_dummies (l : list (string * column)) : list (string * column) :=
  match l with
  | [] => []
  | (n, ObjCol values) :: rest => dummies_1d n values ++ all_dummies rest
  | _ :: rest => all_dummies rest
  end.

(** [pd.get_dummies(frame, drop_first=True)]: the columns left as they
    are come first, then the indicators. Both frames it is applied to
    have at least one column. *)
Definition get_dummies (f : Frame) : Frame :=
  mkFrame (nrows f) (passthrough (cols f) ++ all_dummies (cols f)).

(** Equality of two lists of column names. *)
Fixpoint names_eqb (a b : list string) : bool :=
  match a, b with
  | [], [] => true
  | x :: a', y :: b' => String.eqb x y && names_eqb a' b'
  | _, _ => false
  end.

Fixpoint has_duplicate (l : list string) : bool :=
  match l with
  | [] => false
  | x :: rest => existsb (String.eqb x) rest || has_duplicate rest
  end.

(** The column that reindexing gives to one schema entry: the frame's
    column of that name, or the fill column. *)
Definition pick (fill : column) (l : list (string * column)) (name : string)
  : column :=
  match get_column name l with
  | Some c => c
  | None => fill
  end.

(** [frame.reindex(columns=schema, fill_value=0)]: one column per schema
    entry, taken from the frame when it has a column of that name and
    filled with zeros otherwise. When the frame's column names repeat
    and differ from the schema, pandas raises [ValueError]. *)
Definition reindex (f : Frame) (schema : list string) : result Frame :=
  if names_eqb (columns f) schema then Ok f
  else if has_duplicate (columns f) then Raise ValueError
  else
    Ok (mkFrame (nrows f)
          (map (fun name =>
                  (name, pick (IntCol (repeat 0%Z (nrows f))) (cols f) name))
               schema)).

(** *** The what-if form *)

(** The values of the widgets of [risk_form]. The school is one of the
    values of [df["school_name"]], hence a label. *)
Record FormInput : Type := mkForm {
  in_school : label;
  in_gender : string;
  in_studytime : Z;
  in_absences : Z;
  in_G1 : Z;
  in_G2 : Z;
  in_failures : Z;
  in_health : Z
}.

(** A value of a Python dict built from the form. *)
Inductive cell : Type :=
  | CInt (z : Z)
  | CStr (s : string).

(** The conditional expression of line 163. *)
Definition school_code (l : label) : string :=
  if label_eqb l (Some "Gabriel Pereira") then "GP" else "MS".

(** [student_dict], lines 155-164, in key order. *)
Definition student_dict (i : FormInput) : list (string * cell) :=
  [ ("studytime", CInt (in_studytime i));
    ("absences", CInt (in_absences i));
    ("G1", CInt (in_G1 i));
    ("G2", CInt (in_G2 i));
    ("failures", CInt (in_failures i));
    ("health", CInt (in_health i));
    ("sex", CStr (in_gender i));
    ("school", CStr (school_code (in_school i))) ].

(** [pd.DataFrame([d])]: a frame of one row; an integer value gives an
    integer column, a string an object column. *)
Definition frame_of_dict (d : list (string * cell)) : Frame :=
  mkFrame 1
    (map (fun kv =>
            (fst kv,
             match snd kv with
             | CInt z => IntCol [z]
             | CStr s => ObjCol [Some s]
             end))
         d).

(** Lines 166-167: the one-hot expansion of the single record. *)
Definition student_expansion (i : FormInput) : Frame :=
  get_dummies (frame_of_dict (student_dict i)).

(** Lines 166-168: expansion, then reindexing to the schema. *)
Definition align_encode (i : FormInput) (schema : list string)
  : result Frame :=
  reindex (student_expansion i) schema.

(** *** The training frame *)

(** [features = filtered.drop(columns=["G3", "school_name"])], in the
    dataset's column order. *)
Definition features (cohort : list StudentRecord) : Frame :=
  mkFrame (List.length cohort)
    [ ("school", ObjCol (map (fun r => Some (school r)) cohort));
      ("sex", ObjCol (map (fun r => Some (sex r)) cohort));
      ("studytime", IntCol (map studytime cohort));
      ("failures", IntCol (map failures cohort));
      ("health", IntCol (map health cohort));
      ("absences", IntCol (map absences cohort));
      ("G1", IntCol (map G1 cohort));
      ("G2", IntCol (map G2 cohort)) ].

(** [X_encoded = pd.get_dummies(features, drop_first=True)] *)
Definition X_encoded (cohort : list StudentRecord) : Frame :=
  get_dummies (features cohort).

(** ** Risk assessment of a cohort *)

(** One row of [filtered] once the three derived columns are set. *)
Record Assessed : Type := mkAssessed {
  a_record : StudentRecord;
  a_predicted_G3 : Q;
  a_risk_probability : Q;
  a_at_risk : bool
}.

(** [filtered["predicted_G3"] = values]: the values must be as many as
    the rows, else pandas raises [ValueError]. *)
Definition set_predicted_G3 (cohort : list StudentRecord) (values : list Q)
  : result (list (StudentRecord * Q)) :=
  if Nat.eqb (List.length values) (List.length cohort)
  then Ok (combine cohort values)
  else Raise ValueError.

(** Lines 87-91: the risk columns, row by row. *)
Definition assess (rows : list (StudentRecord * Q)) : list Assessed :=
  map (fun rp =>
         mkAssessed (fst rp) (snd rp)
           (risk_probability (snd rp)) (at_risk (snd rp)))
      rows.

(** ** Aggregator *)

(** One row of [risk_by_school]. *)
Record SchoolRisk : Type := mkSchoolRisk {
  g_school_name : string;
  g_at_risk : option Q;
  g_at_risk_pct : option Q
}.

(** The rows of one school. *)
Definition school_group (rows : list Assessed) (key : string)
  : list Assessed :=
  List.filter (fun a => label_eqb (school_name (a_record a)) (Some key)) rows.

(** The group keys of [groupby("school_name")]: the distinct present
    labels, sorted; rows with a missing label belong to no group. *)
Definition group_keys (rows : list Assessed) : list string :=
  sorted_strings
    (unique String.eqb
       (dropna (map (fun a => school_name (a_record a)) rows))).

(** Lines 113-118: [groupby("school_name")["at_risk"].mean()
    .reset_index()], then the column [at_risk_pct = at_risk * 100]. *)
Definition risk_by_school (rows : list Assessed) : list SchoolRisk :=
  map (fun key =>
         let rate :=
           series_mean (map bool_to_Q (map a_at_risk (school_group rows key)))
         in
         mkSchoolRisk key rate (times_100 rate))
      (group_keys rows).

(** The number of rows of one school: the count that the specification
    asks of the aggregator. *)
Definition group_count (rows : list Assessed) (key : string) : nat :=
  List.length (school_group rows key).

(** The number of at-risk rows of one school. *)
Definition group_at_risk (rows : list Assessed) (key : string) : nat :=
  List.length (List.filter a_at_risk (school_group rows key)).

(** ** Predictions page *)

Record PredictionKPIs : Type := mkPredictionKPIs {
  p_total_students : nat;
  p_at_risk_count : nat;
  p_at_risk_pct : option Q;
  p_high_risk_count : nat
}.

(** Lines 98-101. The count is a NumPy integer, so that on an empty
    frame the division 0 / 0 gives NaN. *)
Definition prediction_kpis (rows : list Assessed) : PredictionKPIs :=
  let total := List.length rows in
  let count := List.length (List.filter a_at_risk rows) in
  mkPredictionKPIs
    total
    count
    (match total with
     | O => None
     | _ =>
         Some (inject_Z (Z.of_nat count) / inject_Z (Z.of_nat total) * 100)
     end)
    (List.length
       (List.filter (fun a => negb (Qltb (a_risk_probability a) (7 # 10)))
          rows)).

Record PageReport : Type := mkReport {
  report_rows : list Assessed;
  report_kpis : PredictionKPIs;
  report_by_school : list SchoolRisk
}.

(** The result of the what-if form: predicted grade, risk probability and
    the at-risk verdict. *)
Record StudentAssessment : Type := mkStudentAssessment {
  predicted_grade : Q;
  risk_prob_value : Q;
  shown_at_risk : bool
}.

Section Regressor.
(** The ensemble regressor is a library object: its fitted model, its
    [fit], which may raise, and its [predict]. *)
Variable Model : Type.
Variable rf_fit : Frame -> list Z -> result Model.
Variable rf_predict : Model -> Frame -> list Q.

(** Lines 58-118 of [3_Predictions.py], from the filter to the
    aggregation. The fit is called on whatever the filter returns. *)
Definition predictions_page (df : list StudentRecord) (c : FilterCriteria)
  : result PageReport :=
  let cohort := filtered df c in
  let X := X_encoded cohort in
  let target := map G3 cohort in
  rf <- rf_fit X target ;;
  rows <- set_predicted_G3 cohort (rf_predict rf X) ;;
  let assessed := assess rows in
  Ok (mkReport assessed (prediction_kpis assessed) (risk_by_school assessed)).

(** Lines 154-173: the what-if prediction with a fitted model, aligned to
    the columns of the training matrix. *)
Definition predict_student (rf : Model) (X : Frame) (i : FormInput)
  : result StudentAssessment :=
  student_encoded <- align_encode i (columns X) ;;
  match rf_predict rf student_encoded with
  | [] => Raise IndexError
  | p :: _ => Ok (mkStudentAssessment p (risk_prob p) (at_risk p))
  end.
End Regressor.

(** ** A stand-in regressor and sample data

    Used to evaluate the pages on concrete data. The stand-in rejects an
    empty training set, as the library's input validation does, and
    otherwise predicts the mean of the targets. *)

Definition mean_fit (X : Frame) (y : list Z) : result Q :=
  match nrows X, series_mean (map inject_Z y) with
  | S _, Some m => Ok m
  | _, _ => Raise ValueError
  end.

Definition mean_predict (m : Q) (X : Frame) : list Q := repeat m (nrows X).

Definition sample_df : list StudentRecord :=
  load_student_data
    [ mkRaw "GP" "F" 2 0 3 4 8 8 8;
      mkRaw "MS" "M" 1 1 5 0 12 12 12;
      mkRaw "GP" "M" 3 0 4 2 9 9 9 ].

Definition sample_second : StudentRecord :=
  mkStudent "MS" "M" 1 1 5 0 12 12 12 (Some "Mousinho da Silveira").

(** The second row of the sample cohort, predicted at exactly 10. *)
Definition sample_assessed : Assessed :=
  mkAssessed sample_second 10 (risk_probability 10) (at_risk 10).

(** The sample cohort with three predicted grades. *)
Definition sample_rows : list (StudentRecord * Q) :=
  combine sample_df [8; 10; 23 # 2].

Definition sample_form : FormInput :=
  mkForm (Some "Mousinho da Silveira") "M" 2 5 10 10 0 3.
(** A form whose school is not one of the two known labels. *)
Definition unknown_school_form : FormInput :=
  mkForm (Some "Escola Nova") "F" 2 5 10 10 0 3.

(** A selection without any school. *)
Definition no_school_criteria : FilterCriteria :=
  mkCriteria [] ["F"; "M"] 1.

(** Equality of two possibly missing numbers: both missing, or both
    present and equal. *)
Definition Qeq_opt (a b : option Q) : Prop :=
  match a, b with
  | Some x, Some y => x == y
  | None, None => True
  | _, _ => False
  end.

(** Two aggregate rows that show the same school and the same numbers. *)
Definition same_numbers (g h : SchoolRisk) : Prop :=
  g_school_name g = g_school_name h /\
  Qeq_opt (g_at_risk g) (g_at_risk h) /\
  Qeq_opt (g_at_risk_pct g) (g_at_risk_pct h).

Definition student_of (name : string) : StudentRecord :=
  mkStudent "GP" "F" 2 0 3 0 10 10 10 (Some name).

(** The aggregation scenario: school A with flags true, false and school
    B with flags true, true. *)
Definition scenario_rows : list Assessed :=
  assess
    [ (student_of "A", 8); (student_of "A", 12);
      (student_of "B", 9); (student_of "B", 7) ].

(** The same rates on a cohort twice as large. *)
Definition doubled_rows : list Assessed := scenario_rows ++ scenario_rows.

(** ** Further parts of the pages *)

(** [s.replace(old, new)] for two one-character strings: every
    occurrence of the character is replaced. *)
Fixpoint str_replace_char (old new : ascii) (s : string) : string :=
  match s with
  | EmptyString => EmptyString
  | String ch rest =>
      String (if Ascii.eqb ch old then new else ch)
        (str_replace_char old new rest)
  end.

(** The renaming of one column in [load_student_data]:
    [c.replace(" ", "_").replace("-", "_")]. *)
Definition rename_column (c : string) : string :=
  str_replace_char "-" "_" (str_replace_char " " "_" c).

(** The characters of a string. *)
Fixpoint chars (s : string) : list ascii :=
  match s with
  | EmptyString => []
  | String ch rest => ch :: chars rest
  end.

(** [col.max()] on an integer series; missing on an empty series. *)
Fixpoint series_max (col : list Z) : option Z :=
  match col with
  | [] => None
  | x :: rest =>
      match series_max rest with
      | None => Some x
      | Some m => Some (Z.max x m)
      end
  end.

(** The number of entries of a column. *)
Definition column_length (c : column) : nat :=
  match c with
  | IntCol v => List.length v
  | ObjCol v => List.length v
  | BoolCol v => List.length v
  end.

(** A frame is well formed when each of its columns has one entry per
    row. *)
Definition well_formed (f : Frame) : Prop :=
  Forall (fun nc => column_length (snd nc) = nrows f) (cols f).

Definition is_object (c : column) : bool :=
  match c with
  | ObjCol _ => true
  | _ => false
  end.

(** The entry of an indicator column at row [k]. *)
Definition flag_at (k : nat) (c : column) : bool :=
  match c with
  | BoolCol v => nth k v false
  | _ => false
  end.

(** The numeric fields of the what-if form. *)
Definition numeric_fields (i : FormInput) : list Z :=
  [ in_studytime i; in_absences i; in_G1 i; in_G2 i; in_failures i;
    in_health i ].

(** Ascending order of strings. *)
Definition string_le (a b : string) : Prop := String.leb a b = true.

(** One criteria is at least as strict as another: fewer schools, fewer
    genders, a threshold at least as high. *)
Definition stricter (c1 c2 : FilterCriteria) : Prop :=
  incl (selected_school c1) (selected_school c2) /\
  incl (selected_gender c1) (selected_gender c2) /\
  (selected_studytime c2 <= selected_studytime c1)%Z.

(** A regressor whose predictions are too few, and one that fits
    anything. *)
Definition no_predict (m : Q) (X : Frame) : list Q := [].

Definition any_fit (X : Frame) (y : list Z) : result Q := Ok 10.

Definition sample_criteria : FilterCriteria :=
  mkCriteria [Some "Gabriel Pereira"; Some "Mousinho da Silveira"]
    ["F"; "M"] 1.

Definition one_school_criteria : FilterCriteria :=
  mkCriteria [Some "Gabriel Pereira"] ["F"; "M"] 2.

(** A raw collection in which one school code is outside the mapping. *)
Definition mixed_df : list StudentRecord :=
  load_student_data
    [ mkRaw "GP" "F" 2 0 3 4 8 8 8;
      mkRaw "XX" "M" 1 1 5 0 12 12 12 ].

(** The sum of a list of counts. *)
Definition sum_nat (l : list nat) : nat := fold_right Nat.add 0%nat l.

(** Whether a row has a school label. *)
Definition has_label (a : Assessed) : bool :=
  is_present (school_name (a_record a)).

(** The levels of a categorical column: its distinct present values in
    ascending order. *)
Definition levels_of (values : list (option string)) : list string :=
  sorted_strings (unique String.eqb (dropna values)).

(** The number of indicators of one categorical column that are set at
    row [k]. *)
Definition set_at (name : string) (values : list (option string)) (k : nat)
  : nat :=
  List.length
    (List.filter (fun nc => flag_at k (snd nc)) (dummies_1d name values)).

(** * Properties

    ** Basic facts about the scalar helpers *)

Lemma Qltb_true (x y : Q) : Qltb x y = true <-> x < y.
Proof.
  unfold Qltb. rewrite Qlt_alt. destruct (x ?= y); split; congruence.
Qed.

Lemma Qltb_false (x y : Q) : Qltb x y = false <-> y <= x.
Proof.
  split; intros H.
  - apply Qnot_lt_le. intros Hlt. apply Qltb_true in Hlt. congruence.
  - destruct (Qltb x y) eqn:E; [|reflexivity].
    apply Qltb_true in E. exfalso. apply (Qlt_not_le _ _ E H).
Qed.

Lemma clamp_spec_cases (x lo hi : Q) :
  lo <= hi ->
  (x <= lo /\ clamp_spec x lo hi == lo) \/
  (lo <= x <= hi /\ clamp_spec x lo hi == x) \/
  (hi <= x /\ clamp_spec x lo hi == hi).
Proof.
  intros Hlh. unfold clamp_spec.
  destruct (Qlt_le_dec x lo) as [Hx|Hx].
  - left. split; [apply Qlt_le_weak; exact Hx|].
    rewrite (Q.min_l x hi) by lra. apply Q.max_l. lra.
  - destruct (Qlt_le_dec hi x) as [Hh|Hh].
    + right. right. split; [lra|].
      rewrite (Q.min_r x hi) by lra. apply Q.max_r. exact Hlh.
    + right. left. split; [split; assumption|].
      rewrite (Q.min_l x hi) by exact Hh. apply Q.max_r. exact Hx.
Qed.

(** Linear arithmetic with division by the constant 10. *)
Ltac qlra := unfold Qdiv in *; change (/ 10) with (1 # 10) in *; lra.

Lemma clip_lower_lo (x lo : Q) : x < lo -> clip_lower x lo = lo.
Proof. intros H. unfold clip_lower. apply Qltb_true in H. now rewrite H. Qed.

Lemma clip_lower_id (x lo : Q) : lo <= x -> clip_lower x lo = x.
Proof. intros H. unfold clip_lower. apply Qltb_false in H. now rewrite H. Qed.

Lemma clip_upper_hi (x hi : Q) : hi < x -> clip_upper x hi = hi.
Proof. intros H. unfold clip_upper. apply Qltb_true in H. now rewrite H. Qed.

Lemma clip_upper_id (x hi : Q) : x <= hi -> clip_upper x hi = x.
Proof. intros H. unfold clip_upper. apply Qltb_false in H. now rewrite H. Qed.

Lemma py_max_snd (a b : Q) : a < b -> py_max a b = b.
Proof. intros H. unfold py_max. apply Qltb_true in H. now rewrite H. Qed.

Lemma py_max_fst (a b : Q) : b <= a -> py_max a b = a.
Proof. intros H. unfold py_max. apply Qltb_false in H. now rewrite H. Qed.

Lemma py_min_snd (a b : Q) : b < a -> py_min a b = b.
Proof. intros H. unfold py_min. apply Qltb_true in H. now rewrite H. Qed.

Lemma py_min_fst (a b : Q) : a <= b -> py_min a b = a.
Proof. intros H. unfold py_min. apply Qltb_false in H. now rewrite H. Qed.

(** The cohort expression, by cases on the predicted grade. *)
Lemma risk_probability_cases (p : Q) :
  (p <= 0 /\ risk_probability p == 1) \/
  (0 <= p <= 10 /\ risk_probability p == (10 - p) / 10) \/
  (10 <= p /\ risk_probability p == 0).
Proof.
  unfold risk_probability, clip.
  destruct (Qlt_le_dec p 0) as [H0|H0].
  - left. split; [qlra|].
    rewrite (clip_lower_id (10 - p) 0) by qlra.
    rewrite (clip_lower_id ((10 - p) / 10) 0) by qlra.
    rewrite clip_upper_hi by qlra. reflexivity.
  - destruct (Qlt_le_dec 10 p) as [H1|H1].
    + right. right. split; [qlra|].
      rewrite (clip_lower_lo (10 - p) 0) by qlra.
      rewrite (clip_lower_id (0 / 10) 0) by qlra.
      rewrite clip_upper_id by qlra. qlra.
    + right. left. split; [qlra|].
      rewrite (clip_lower_id (10 - p) 0) by qlra.
      rewrite (clip_lower_id ((10 - p) / 10) 0) by qlra.
      rewrite clip_upper_id by qlra. reflexivity.
Qed.

(** The what-if expression, by cases on the predicted grade. *)
Lemma risk_prob_cases (p : Q) :
  (p <= 0 /\ risk_prob p == 1) \/
  (0 <= p <= 10 /\ risk_prob p == (10 - p) / 10) \/
  (10 <= p /\ risk_prob p == 0).
Proof.
  unfold risk_prob.
  destruct (Qlt_le_dec p 0) as [H0|H0].
  - left. split; [qlra|].
    rewrite py_min_snd by qlra. rewrite py_max_snd by qlra. reflexivity.
  - destruct (Qlt_le_dec 10 p) as [H1|H1].
    + right. right. split; [qlra|].
      rewrite py_min_fst by qlra. rewrite py_max_fst by qlra. reflexivity.
    + right. left. split; [qlra|].
      rewrite py_min_fst by qlra.
      destruct (Qlt_le_dec 0 ((10 - p) / 10)) as [H2|H2].
      * rewrite py_max_snd by exact H2. reflexivity.
      * rewrite py_max_fst by exact H2. qlra.
Qed.

Lemma risk_probability_clamp (p : Q) :
  risk_probability p == clamp_spec ((10 - p) / 10) 0 1.
Proof.
  destruct (risk_probability_cases p) as [[Hp E]|[[Hp E]|[Hp E]]];
    destruct (clamp_spec_cases ((10 - p) / 10) 0 1 ltac:(lra))
      as [[Hc F]|[[Hc F]|[Hc F]]];
    rewrite E, F; qlra.
Qed.

Lemma risk_prob_clamp (p : Q) :
  risk_prob p == clamp_spec ((10 - p) / 10) 0 1.
Proof.
  destruct (risk_prob_cases p) as [[Hp E]|[[Hp E]|[Hp E]]];
    destruct (clamp_spec_cases ((10 - p) / 10) 0 1 ltac:(lra))
      as [[Hc F]|[[Hc F]|[Hc F]]];
    rewrite E, F; qlra.
Qed.

Lemma risk_probability_monotone (p q : Q) :
  p <= q -> risk_probability q <= risk_probability p.
Proof.
  intros Hpq.
  destruct (risk_probability_cases p) as [[Hp E]|[[Hp E]|[Hp E]]];
    destruct (risk_probability_cases q) as [[Hq F]|[[Hq F]|[Hq F]]];
    rewrite E, F; qlra.
Qed.

Lemma risk_prob_monotone (p q : Q) :
  p <= q -> risk_prob q <= risk_prob p.
Proof.
  intros Hpq.
  destruct (risk_prob_cases p) as [[Hp E]|[[Hp E]|[Hp E]]];
    destruct (risk_prob_cases q) as [[Hq F]|[[Hq F]|[Hq F]]];
    rewrite E, F; qlra.
Qed.

Lemma paths_agree (p : Q) : risk_probability p == risk_prob p.
Proof.
  rewrite risk_probability_clamp, risk_prob_clamp. reflexivity.
Qed.

(** Both expressions respect equality of rationals. *)
Lemma risk_probability_compat (p q : Q) :
  p == q -> risk_probability p == risk_probability q.
Proof.
  intros Hpq.
  destruct (risk_probability_cases p) as [[Hp E]|[[Hp E]|[Hp E]]];
    destruct (risk_probability_cases q) as [[Hq F]|[[Hq F]|[Hq F]]];
    rewrite E, F; qlra.
Qed.

Lemma at_risk_true (p : Q) : at_risk p = true <-> p < 10.
Proof. unfold at_risk. apply Qltb_true. Qed.

(** ** Risk score *)

(** C1. For every predicted grade [p], both risk expressions of the code
    equal the clamp of [(10 - p) / 10] to [[0, 1]]; the score does not
    increase when the grade increases, is 1 at grades of 0 or less, 0 at
    grades of 10 or more, and one half at grade 5. *)
Theorem risk_probability_spec (p q : Q) :
  risk_probability p == clamp_spec ((10 - p) / 10) 0 1 /\
  risk_prob p == clamp_spec ((10 - p) / 10) 0 1 /\
  (p <= q ->
   risk_probability q <= risk_probability p /\ risk_prob q <= risk_prob p) /\
  (p <= 0 -> risk_probability p == 1 /\ risk_prob p == 1) /\
  (10 <= p -> risk_probability p == 0 /\ risk_prob p == 0) /\
  (p == 5 -> risk_probability p == 1 # 2 /\ risk_prob p == 1 # 2).
Proof.
  split; [apply risk_probability_clamp|].
  split; [apply risk_prob_clamp|].
  split.
  { intros H. split;
      [apply risk_probability_monotone | apply risk_prob_monotone]; exact H. }
  assert (Hcases := risk_probability_cases p).
  assert (Heq := paths_agree p).
  repeat split; rewrite <- ?Heq;
    destruct Hcases as [[Hp E]|[[Hp E]|[Hp E]]]; rewrite E; qlra.
Qed.

(** C1 evaluated: grade 5 against grade 7, and the two ends. *)
Lemma risk_probability_spec_witness :
  (risk_probability 7 <= risk_probability 5 /\ risk_prob 7 <= risk_prob 5) /\
  (risk_probability (-3) == 1 /\ risk_prob (-3) == 1) /\
  (risk_probability 12 == 0 /\ risk_prob 12 == 0) /\
  (risk_probability (10 # 2) == 1 # 2 /\ risk_prob (10 # 2) == 1 # 2).
Proof.
  split; [apply (risk_probability_spec 5 7); discriminate|].
  split; [apply (risk_probability_spec (-3) 0); discriminate|].
  split; [apply (risk_probability_spec 12 0); discriminate|].
  apply (risk_probability_spec (10 # 2) 0); reflexivity.
Defined.

(** C9. The cohort expression and the what-if expression are the same
    function of the predicted grade: equal predictions get equal risk
    probabilities on the two paths. *)
Theorem cohort_and_what_if_agree (p q : Q) :
  p == q -> risk_probability p == risk_prob q.
Proof.
  intros Hpq. rewrite (risk_probability_compat p q Hpq). apply paths_agree.
Qed.

(** C9 evaluated at grade 7/2, written in two ways. *)
Lemma cohort_and_what_if_agree_witness :
  risk_probability (7 # 2) == risk_prob (14 # 4).
Proof. apply (cohort_and_what_if_agree (7 # 2) (14 # 4)). reflexivity. Defined.

(** C2. A prediction is flagged at risk exactly when the predicted grade
    is below 10, on the rows of the cohort as on a single grade; a grade
    of exactly 10 is not at risk and has risk probability 0. *)
Theorem at_risk_iff_below_10 (p : Q) (rows : list (StudentRecord * Q))
    (a : Assessed) :
  In a (assess rows) ->
  (at_risk p = true <-> p < 10) /\
  (a_at_risk a = true <-> a_predicted_G3 a < 10) /\
  (p == 10 ->
   at_risk p = false /\ risk_probability p == 0 /\ risk_prob p == 0).
Proof.
  intros Ha.
  split; [apply at_risk_true|].
  split.
  - unfold assess in Ha. apply in_map_iff in Ha.
    destruct Ha as [rp [<- _]]. simpl. apply at_risk_true.
  - intros H10. split.
    + unfold at_risk. apply Qltb_false. rewrite H10. apply Qle_refl.
    + rewrite <- (paths_agree p).
      destruct (risk_probability_cases p) as [[Hp E]|[[Hp E]|[Hp E]]];
        rewrite E; split; qlra.
Qed.

(** C2 evaluated on the sample cohort, whose second prediction is 10. *)
Lemma at_risk_iff_below_10_witness :
  (at_risk 10 = true <-> 10 < 10) /\
  (a_at_risk sample_assessed = true <-> a_predicted_G3 sample_assessed < 10) /\
  (10 == 10 ->
   at_risk 10 = false /\ risk_probability 10 == 0 /\ risk_prob 10 == 0).
Proof.
  apply (at_risk_iff_below_10 10 sample_rows sample_assessed).
  simpl. right. left. reflexivity.
Defined.

(** ** Filter engine *)

Lemma label_eqb_eq (a b : label) : label_eqb a b = true <-> a = b.
Proof.
  destruct a as [x|], b as [y|]; simpl; try (split; congruence).
  rewrite String.eqb_eq. split; congruence.
Qed.

Lemma existsb_label_In (x : label) (l : list label) :
  existsb (label_eqb x) l = true <-> In x l.
Proof.
  rewrite existsb_exists. split.
  - intros [y [Hy E]]. apply label_eqb_eq in E. subst. exact Hy.
  - intros H. exists x. split; [exact H | apply label_eqb_eq; reflexivity].
Qed.

Lemma existsb_string_In (x : string) (l : list string) :
  existsb (String.eqb x) l = true <-> In x l.
Proof.
  rewrite existsb_exists. split.
  - intros [y [Hy E]]. apply String.eqb_eq in E. subst. exact Hy.
  - intros H. exists x. split; [exact H | apply String.eqb_refl].
Qed.

Lemma satisfiesb_spec (c : FilterCriteria) (r : StudentRecord) :
  satisfiesb c r = true <-> satisfies c r.
Proof.
  unfold satisfiesb, satisfies.
  rewrite !andb_true_iff, existsb_label_In, existsb_string_In, Z.leb_le.
  tauto.
Qed.

Lemma filter_mask_map (df : list StudentRecord) (c : FilterCriteria) :
  filter_mask df c = map (satisfiesb c) df.
Proof.
  unfold filter_mask, isin, series_ge.
  induction df as [|r df IH]; simpl; [reflexivity|].
  f_equal. exact IH.
Qed.

Lemma boolean_index_map {A : Type} (f : A -> bool) (l : list A) :
  boolean_index l (map f l) = List.filter f l.
Proof.
  induction l as [|x l IH]; simpl; [reflexivity|].
  destruct (f x); rewrite IH; reflexivity.
Qed.

Lemma filtered_filter (df : list StudentRecord) (c : FilterCriteria) :
  filtered df c = filter_spec c df.
Proof.
  unfold filtered, filter_spec.
  rewrite filter_mask_map. apply boolean_index_map.
Qed.

Lemma Subseq_filter {A : Type} (f : A -> bool) (l : list A) :
  Subseq (List.filter f l) l.
Proof.
  induction l as [|x l IH]; simpl.
  - constructor.
  - destruct (f x); constructor; exact IH.
Qed.

Lemma filter_none {A : Type} (f : A -> bool) (l : list A) :
  (forall x, f x = false) -> List.filter f l = [].
Proof.
  intros Hf. induction l as [|x l IH]; simpl; [reflexivity|].
  rewrite Hf. exact IH.
Qed.

Lemma filter_all {A : Type} (f : A -> bool) (l : list A) :
  (forall x, In x l -> f x = true) -> List.filter f l = l.
Proof.
  induction l as [|x l IH]; intros Hf; simpl; [reflexivity|].
  rewrite (Hf x (or_introl eq_refl)). f_equal.
  apply IH. intros y Hy. apply Hf. right. exact Hy.
Qed.

(** C4. The filter returns exactly the records that satisfy the three
    conditions, in the order of the input: it equals the filter of the
    specification, is a subsequence of the input, holds a record exactly
    when the record is in the input and satisfies the criteria, and is
    empty as soon as no school or no gender is selected. *)
Theorem filter_engine_exact (df : list StudentRecord) (c : FilterCriteria) :
  filtered df c = filter_spec c df /\
  Subseq (filtered df c) df /\
  (forall r, In r (filtered df c) <-> In r df /\ satisfies c r) /\
  filtered df (mkCriteria [] (selected_gender c) (selected_studytime c)) = [] /\
  filtered df (mkCriteria (selected_school c) [] (selected_studytime c)) = [].
Proof.
  split; [apply filtered_filter|].
  split; [rewrite filtered_filter; apply Subseq_filter|].
  split.
  - intros r. rewrite filtered_filter. unfold filter_spec.
    rewrite filter_In, satisfiesb_spec. reflexivity.
  - split; rewrite filtered_filter; apply filter_none; intros r;
      unfold satisfiesb; simpl.
    + reflexivity.
    + rewrite andb_false_r. reflexivity.
Qed.

Section UniqueFacts.
Context {A : Type} (eqb : A -> A -> bool).
Hypothesis eqb_eq : forall x y, eqb x y = true <-> x = y.

Lemma existsb_eqb_In (x : A) (l : list A) :
  existsb (eqb x) l = true <-> In x l.
Proof.
  rewrite existsb_exists. split.
  - intros [y [Hy E]]. apply eqb_eq in E. subst. exact Hy.
  - intros H. exists x. split; [exact H | apply eqb_eq; reflexivity].
Qed.

Lemma unique_from_In (x : A) (col seen : list A) :
  In x (unique_from eqb seen col) <-> In x col /\ ~ In x seen.
Proof.
  revert seen. induction col as [|y col IH]; intros seen; simpl.
  - tauto.
  - destruct (existsb (eqb y) seen) eqn:E.
    + apply existsb_eqb_In in E. rewrite IH. split.
      * intros [H1 H2]. tauto.
      * intros [[H1|H1] H2]; [subst; contradiction | tauto].
    + assert (Hy : ~ In y seen).
      { intros H. apply existsb_eqb_In in H. congruence. }
      simpl. rewrite IH. simpl. split.
      * intros [H|[H1 H2]]; [subst; tauto | tauto].
      * intros [[H|H] H2]; [tauto|].
        destruct (eqb y x) eqn:F.
        -- apply eqb_eq in F. tauto.
        -- right. split; [exact H|]. intros [G|G]; [|tauto].
           subst. assert (eqb x x = true) by (apply eqb_eq; reflexivity).
           congruence.
Qed.

(** [unique] keeps every value of the series. *)
Lemma unique_In (x : A) (col : list A) : In x (unique eqb col) <-> In x col.
Proof. unfold unique. rewrite unique_from_In. simpl. tauto. Qed.
End UniqueFacts.

Lemma series_min_le (col : list Z) (m x : Z) :
  series_min col = Some m -> In x col -> (m <= x)%Z.
Proof.
  revert m. induction col as [|y col IH]; intros m Hm Hx; [contradiction|].
  simpl in Hm. destruct (series_min col) as [m'|] eqn:E.
  - injection Hm as <-. destruct Hx as [->|Hx].
    + apply Z.le_min_l.
    + specialize (IH m' eq_refl Hx). lia.
  - injection Hm as <-. destruct Hx as [->|Hx]; [lia|].
    destruct col; [contradiction|]. simpl in E.
    destruct (series_min col); discriminate.
Qed.

(** Selections that cover the input keep every record. *)
Lemma filtered_covering (df : list StudentRecord) (c : FilterCriteria) :
  (forall r, In r df -> satisfies c r) -> filtered df c = df.
Proof.
  intros H. rewrite filtered_filter. unfold filter_spec.
  apply filter_all. intros r Hr. apply satisfiesb_spec. apply H. exact Hr.
Qed.

(** C5. With every distinct school label and every distinct gender of
    the collection selected and the threshold at the collection's minimum
    study time, the filter returns the collection unchanged. *)
Theorem filter_full_default_identity (df : list StudentRecord)
    (c : FilterCriteria) :
  incl (unique label_eqb (map school_name df)) (selected_school c) ->
  incl (unique String.eqb (map sex df)) (selected_gender c) ->
  (forall m, series_min (map studytime df) = Some m ->
             selected_studytime c = m) ->
  filtered df c = df.
Proof.
  intros Hs Hg Hm. apply filtered_covering. intros r Hr.
  unfold satisfies. repeat split.
  - apply Hs. apply (unique_In label_eqb label_eqb_eq).
    apply in_map. exact Hr.
  - apply Hg. apply (unique_In String.eqb String.eqb_eq).
    apply in_map. exact Hr.
  - destruct (series_min (map studytime df)) as [m|] eqn:E.
    + rewrite (Hm m eq_refl).
      apply (series_min_le _ _ _ E). apply in_map. exact Hr.
    + destruct df; [contradiction|]. simpl in E.
      destruct (series_min (map studytime df)); discriminate.
Qed.

(** C5 evaluated on the sample collection with its default selections. *)
Lemma filter_full_default_identity_witness :
  filtered sample_df
    (mkCriteria [Some "Gabriel Pereira"; Some "Mousinho da Silveira"]
       ["F"; "M"] 1) = sample_df.
Proof.
  apply filter_full_default_identity.
  - intros l Hl. simpl in *. tauto.
  - intros g Hg. simpl in *. tauto.
  - intros m Hm. vm_compute in Hm. injection Hm as <-. reflexivity.
Defined.

(** *** The defaults that the sidebar computes *)

Lemma insert_sorted_In (x s : string) (l : list string) :
  In x (insert_sorted s l) <-> x = s \/ In x l.
Proof.
  induction l as [|h t IH]; simpl.
  - intuition congruence.
  - destruct (String.leb s h); simpl; rewrite ?IH; intuition congruence.
Qed.

Lemma sorted_strings_In (x : string) (l : list string) :
  In x (sorted_strings l) <-> In x l.
Proof.
  induction l as [|h t IH]; simpl; [tauto|].
  rewrite insert_sorted_In, IH. intuition congruence.
Qed.

Lemma dropna_In (s : string) (l : list label) :
  In s (dropna l) <-> In (Some s) l.
Proof.
  induction l as [|[h|] t IH]; simpl; rewrite ?IH; intuition congruence.
Qed.



Example default_criteria_sample :
  default_criteria sample_df =
  Ok (mkCriteria [Some "Gabriel Pereira"; Some "Mousinho da Silveira"]
        ["F"; "M"] 1).
Proof. reflexivity. Qed.

(** ** Feature encoder *)

Lemma names_eqb_eq (a b : list string) : names_eqb a b = true <-> a = b.
Proof.
  revert b. induction a as [|x a IH]; intros [|y b]; simpl;
    try (split; congruence).
  rewrite andb_true_iff, String.eqb_eq, IH. split.
  - intros [-> ->]. reflexivity.
  - intros H. injection H as -> ->. auto.
Qed.

Lemma get_column_None (name : string) (l : list (string * column)) :
  get_column name l = None <-> ~ In name (map fst l).
Proof.
  induction l as [|[n c] l IH]; simpl; [tauto|].
  destruct (String.eqb name n) eqn:E.
  - apply String.eqb_eq in E. subst. split; [discriminate | tauto].
  - apply String.eqb_neq in E. rewrite IH. intuition congruence.
Qed.

Section Realign.
Variable fill : column.

Lemma realign_self (l : list (string * column)) :
  has_duplicate (map fst l) = false ->
  map (fun name => (name, pick fill l name)) (map fst l) = l.
Proof.
  induction l as [|[n c] l IH]; simpl; [reflexivity|].
  intros H. apply orb_false_iff in H. destruct H as [Hn Hd].
  f_equal.
  - unfold pick. simpl. rewrite String.eqb_refl. reflexivity.
  - rewrite <- (IH Hd) at 2. apply map_ext_in. intros name Hname.
    unfold pick. simpl.
    destruct (String.eqb name n) eqn:E; [|reflexivity].
    apply String.eqb_eq in E. subst.
    assert (existsb (String.eqb n) (map fst l) = true)
      by (apply existsb_string_In; exact Hname).
    congruence.
Qed.

Lemma get_column_realigned (l : list (string * column))
    (schema : list string) (name : string) :
  get_column name (map (fun n => (n, pick fill l n)) schema) =
  if existsb (String.eqb name) schema then Some (pick fill l name) else None.
Proof.
  induction schema as [|n schema IH]; simpl; [reflexivity|].
  destruct (String.eqb name n) eqn:E; simpl.
  - apply String.eqb_eq in E. subst. reflexivity.
  - exact IH.
Qed.
End Realign.

(** Reindexing a frame whose column names do not repeat never raises:
    the result has one column per schema entry. *)
Lemma reindex_unique (f : Frame) (schema : list string) :
  has_duplicate (columns f) = false ->
  reindex f schema =
  Ok (mkFrame (nrows f)
        (map (fun name => (name, pick (IntCol (repeat 0%Z (nrows f))) (cols f) name))
           schema)).
Proof.
  intros Hd. unfold reindex. rewrite Hd.
  destruct (names_eqb (columns f) schema) eqn:E; [|reflexivity].
  apply names_eqb_eq in E. subst schema. unfold columns.
  rewrite realign_self by exact Hd. destruct f; reflexivity.
Qed.

(** The expansion of a single record holds its six numeric fields and no
    indicator: each categorical field shows one level only, which is the
    reference level. *)
Lemma student_expansion_value (i : FormInput) :
  student_expansion i =
  mkFrame 1
    [ ("studytime", IntCol [in_studytime i]);
      ("absences", IntCol [in_absences i]);
      ("G1", IntCol [in_G1 i]);
      ("G2", IntCol [in_G2 i]);
      ("failures", IntCol [in_failures i]);
      ("health", IntCol [in_health i]) ].
Proof. reflexivity. Qed.

Lemma align_encode_value (i : FormInput) (schema : list string) :
  align_encode i schema =
  Ok (mkFrame 1 (map (fun name => (name, pick (IntCol [0%Z]) (cols (student_expansion i)) name)) schema)).
Proof.
  unfold align_encode. rewrite reindex_unique.
  - reflexivity.
  - rewrite student_expansion_value. reflexivity.
Qed.

(** C3. For every single record and every schema, the alignment returns
    a one-row frame whose columns are the schema, in its order and of its
    length: a schema column keeps the value of the record's expansion
    when the expansion has it, is zero when it has not, and nothing
    outside the schema remains. *)
Theorem align_encode_matches_schema (i : FormInput) (schema : list string) :
  exists v,
    align_encode i schema = Ok v /\
    columns v = schema /\
    List.length (cols v) = List.length schema /\
    nrows v = 1%nat /\
    (forall name c,
        In name schema ->
        get_column name (cols (student_expansion i)) = Some c ->
        get_column name (cols v) = Some c) /\
    (forall name,
        In name schema ->
        ~ In name (columns (student_expansion i)) ->
        get_column name (cols v) = Some (IntCol [0%Z])) /\
    (forall name, ~ In name schema -> get_column name (cols v) = None).
Proof.
  eexists. split; [apply align_encode_value|].
  unfold columns. cbn [cols nrows].
  generalize (cols (student_expansion i)). intros expansion.
  split; [|split; [|split; [reflexivity|]]].
  - rewrite map_map. cbn [fst]. apply map_id.
  - apply length_map.
  - repeat split.
    + intros name c Hin Hc. rewrite get_column_realigned.
      apply existsb_string_In in Hin. rewrite Hin.
      unfold pick. rewrite Hc. reflexivity.
    + intros name Hin Hout. rewrite get_column_realigned.
      apply existsb_string_In in Hin. rewrite Hin.
      apply get_column_None in Hout. unfold pick. rewrite Hout. reflexivity.
    + intros name Hout. apply get_column_None.
      rewrite map_map. cbn [fst]. rewrite map_id. exact Hout.
Qed.

Example align_encode_sample :
  align_encode sample_form (columns (X_encoded sample_df)) =
  Ok (mkFrame 1
        [ ("studytime", IntCol [2%Z]); ("failures", IntCol [0%Z]);
          ("health", IntCol [3%Z]); ("absences", IntCol [5%Z]);
          ("G1", IntCol [10%Z]); ("G2", IntCol [10%Z]);
          ("school_MS", IntCol [0%Z]); ("sex_M", IntCol [0%Z]) ]).
Proof. reflexivity. Qed.




(** C10. In the what-if entry point every school label other than
    "Gabriel Pereira", known to the mapping or not, missing or not, is
    encoded as the code "MS"; the label is never rejected: the record is
    encoded and handed to the model's prediction. *)
Theorem other_school_label_becomes_MS (Model : Type)
    (rf_predict : Model -> Frame -> list Q) (rf : Model) (X : Frame)
    (i : FormInput) :
  in_school i <> Some "Gabriel Pereira" ->
  school_code (in_school i) = "MS" /\
  In ("school", CStr "MS") (student_dict i) /\
  exists v,
    align_encode i (columns X) = Ok v /\
    predict_student Model rf_predict rf X i =
      match rf_predict rf v with
      | [] => Raise IndexError
      | p :: _ => Ok (mkStudentAssessment p (risk_prob p) (at_risk p))
      end.
Proof.
  intros Hne.
  assert (Hcode : school_code (in_school i) = "MS").
  { unfold school_code.
    destruct (label_eqb (in_school i) (Some "Gabriel Pereira")) eqn:E;
      [|reflexivity].
    apply label_eqb_eq in E. contradiction. }
  split; [exact Hcode|]. split.
  - unfold student_dict. rewrite Hcode. simpl. tauto.
  - eexists. split; [apply align_encode_value|].
    unfold predict_student. rewrite align_encode_value. reflexivity.
Qed.

Lemma other_school_label_becomes_MS_witness :
  school_code (in_school unknown_school_form) = "MS" /\
  In ("school", CStr "MS") (student_dict unknown_school_form) /\
  exists v,
    align_encode unknown_school_form (columns (X_encoded sample_df)) = Ok v /\
    predict_student Q mean_predict 10 (X_encoded sample_df)
      unknown_school_form =
      match mean_predict 10 v with
      | [] => Raise IndexError
      | p :: _ => Ok (mkStudentAssessment p (risk_prob p) (at_risk p))
      end.
Proof.
  apply (other_school_label_becomes_MS Q mean_predict 10
           (X_encoded sample_df) unknown_school_form).
  simpl. discriminate.
Defined.

(** ** Aggregator *)

Lemma inject_Z_succ (n : nat) :
  inject_Z (Z.of_nat (S n)) == 1 + inject_Z (Z.of_nat n).
Proof.
  rewrite Nat2Z.inj_succ. unfold Z.succ. rewrite inject_Z_plus.
  change (inject_Z 1) with 1. ring.
Qed.

Lemma inject_Z_nat_nonneg (n : nat) : 0 <= inject_Z (Z.of_nat n).
Proof.
  change 0 with (inject_Z 0). rewrite <- Zle_Qle. apply Nat2Z.is_nonneg.
Qed.

Lemma inject_Z_nat_le (n m : nat) :
  (n <= m)%nat -> inject_Z (Z.of_nat n) <= inject_Z (Z.of_nat m).
Proof. intros H. rewrite <- Zle_Qle. apply Nat2Z.inj_le. exact H. Qed.

(** The sum of a series of flags is the number of true flags. *)
Lemma series_sum_flags {A : Type} (f : A -> bool) (l : list A) :
  series_sum (map bool_to_Q (map f l)) ==
  inject_Z (Z.of_nat (List.length (List.filter f l))).
Proof.
  induction l as [|x l IH]; simpl; [reflexivity|].
  destruct (f x); simpl bool_to_Q.
  - cbn [List.length]. rewrite inject_Z_succ, IH. reflexivity.
  - rewrite IH. ring.
Qed.

Lemma filter_length_le {A : Type} (f : A -> bool) (l : list A) :
  (List.length (List.filter f l) <= List.length l)%nat.
Proof.
  induction l as [|x l IH]; simpl; [lia|].
  destruct (f x); simpl; lia.
Qed.

(** The mean of the flags of a non-empty group is a fraction: present,
    between 0 and 1, and equal to the share of true flags. *)
Lemma mean_flags {A : Type} (f : A -> bool) (l : list A) :
  l <> [] ->
  exists rate,
    series_mean (map bool_to_Q (map f l)) = Some rate /\
    0 <= rate <= 1 /\
    rate * inject_Z (Z.of_nat (List.length l)) ==
    inject_Z (Z.of_nat (List.length (List.filter f l))).
Proof.
  intros Hne. destruct l as [|x l]; [congruence|].
  set (group := x :: l).
  assert (Hpos : 0 < inject_Z (Z.of_nat (List.length group))).
  { change 0 with (inject_Z 0). rewrite <- Zlt_Qlt.
    unfold group. cbn [List.length]. lia. }
  exists (series_sum (map bool_to_Q (map f group)) /
          inject_Z (Z.of_nat (List.length group))).
  split.
  - unfold series_mean. unfold group at 1. cbn [map].
    f_equal. f_equal. unfold group. cbn [List.length map].
    rewrite !length_map. reflexivity.
  - rewrite series_sum_flags. split; [split|].
    + apply Qle_shift_div_l; [exact Hpos|].
      rewrite Qmult_0_l. apply inject_Z_nat_nonneg.
    + apply Qle_shift_div_r; [exact Hpos|].
      rewrite Qmult_1_l. apply inject_Z_nat_le. apply filter_length_le.
    + field. intros H0. rewrite H0 in Hpos. discriminate.
Qed.

Lemma group_keys_In (rows : list Assessed) (key : string) :
  In key (group_keys rows) <->
  In (Some key) (map (fun a => school_name (a_record a)) rows).
Proof.
  unfold group_keys.
  rewrite sorted_strings_In, (unique_In String.eqb String.eqb_eq), dropna_In.
  reflexivity.
Qed.

Lemma school_group_nonempty (rows : list Assessed) (key : string) :
  In key (group_keys rows) -> school_group rows key <> [].
Proof.
  intros H. apply group_keys_In in H. apply in_map_iff in H.
  destruct H as [a [Ha Hin]].
  assert (Hg : In a (school_group rows key)).
  { unfold school_group. apply filter_In. split; [exact Hin|].
    apply label_eqb_eq. exact Ha. }
  intros E. rewrite E in Hg. contradiction.
Qed.

Lemma risk_by_school_keys (rows : list Assessed) :
  map g_school_name (risk_by_school rows) = group_keys rows.
Proof.
  unfold risk_by_school. rewrite map_map. cbn [g_school_name]. apply map_id.
Qed.

(** C8, as the code has it. For every assessed collection, the
    aggregation by school has one row per distinct present school label;
    the row holds the mean at-risk rate of the school, a fraction between
    0 and 1 equal to the share of at-risk records among the school's
    records, and that rate times 100. In the scenario of school A with
    flags true, false and school B with flags true, true it reports 50
    for A and 100 for B. *)
Theorem risk_by_school_rates (rows : list Assessed) :
  (forall key,
      In key (map g_school_name (risk_by_school rows)) <->
      In (Some key) (map (fun a => school_name (a_record a)) rows)) /\
  (forall g,
      In g (risk_by_school rows) ->
      exists rate,
        g_at_risk g = Some rate /\
        0 <= rate <= 1 /\
        rate * inject_Z (Z.of_nat (group_count rows (g_school_name g))) ==
          inject_Z (Z.of_nat (group_at_risk rows (g_school_name g))) /\
        g_at_risk_pct g = Some (rate * 100)) /\
  Forall2 same_numbers (risk_by_school scenario_rows)
    [ mkSchoolRisk "A" (Some (1 # 2)) (Some 50);
      mkSchoolRisk "B" (Some 1) (Some 100) ].
Proof.
  split; [|split].
  - intros key. rewrite risk_by_school_keys. apply group_keys_In.
  - intros g Hg. unfold risk_by_school in Hg. apply in_map_iff in Hg.
    destruct Hg as [key [<- Hkey]]. cbn [g_at_risk g_at_risk_pct g_school_name].
    destruct (mean_flags a_at_risk (school_group rows key)
                (school_group_nonempty rows key Hkey))
      as [rate [Hmean [Hbounds Hshare]]].
    exists rate. rewrite Hmean. unfold group_count, group_at_risk.
    repeat split; try apply Hbounds. exact Hshare.
  - repeat constructor.
Qed.

(** C8 fails on the code in what concerns the count: the aggregate holds
    a rate per school and nothing else. Two cohorts, one twice the other,
    give the same school names and the same numbers, while their groups
    have different sizes. *)
Lemma aggregator_reports_no_count :
  Forall2 same_numbers (risk_by_school scenario_rows)
    (risk_by_school doubled_rows) /\
  group_count scenario_rows "A" = 2%nat /\
  group_count doubled_rows "A" = 4%nat.
Proof.
  split; [repeat constructor|]. split; reflexivity.
Qed.

(** ** Empty cohort *)

Lemma X_encoded_empty :
  X_encoded [] =
  mkFrame 0
    [ ("studytime", IntCol []); ("failures", IntCol []);
      ("health", IntCol []); ("absences", IntCol []);
      ("G1", IntCol []); ("G2", IntCol []) ].
Proof. reflexivity. Qed.

(** On an empty cohort the Predictions page is the fit on a matrix
    without rows, followed by the remaining steps. *)
Lemma predictions_page_empty (Model : Type)
    (rf_fit : Frame -> list Z -> result Model)
    (rf_predict : Model -> Frame -> list Q)
    (df : list StudentRecord) (c : FilterCriteria) :
  filtered df c = [] ->
  predictions_page Model rf_fit rf_predict df c =
  (rf <- rf_fit (X_encoded []) [] ;;
   rows <- set_predicted_G3 [] (rf_predict rf (X_encoded [])) ;;
   Ok (mkReport (assess rows) (prediction_kpis (assess rows))
         (risk_by_school (assess rows)))).
Proof.
  intros Hempty. unfold predictions_page. rewrite Hempty. reflexivity.
Qed.

(** C6, as the code has it. When the filter selects no record, the
    record count is 0 and the aggregation by school is empty, but the two
    means of the Overview page and the at-risk percentage of the
    Predictions page are NaN, and the Predictions page still calls the
    fit, on a matrix without rows: when the regressor rejects it, the
    page fails with the regressor's error. *)
Theorem empty_cohort_behaviour (Model : Type)
    (rf_fit : Frame -> list Z -> result Model)
    (rf_predict : Model -> Frame -> list Q)
    (df : list StudentRecord) (c : FilterCriteria) (e : PyError) :
  filtered df c = [] ->
  rf_fit (X_encoded []) [] = Raise e ->
  overview_kpis (filtered df c) = mkOverviewKPIs 0 None None /\
  prediction_kpis [] = mkPredictionKPIs 0 0 None 0 /\
  risk_by_school [] = [] /\
  predictions_page Model rf_fit rf_predict df c = Raise e.
Proof.
  intros Hempty Hfit. unfold predictions_page. rewrite Hempty.
  repeat split. cbn [map]. rewrite Hfit. reflexivity.
Qed.

Lemma empty_cohort_behaviour_witness :
  overview_kpis (filtered sample_df no_school_criteria) =
    mkOverviewKPIs 0 None None /\
  prediction_kpis [] = mkPredictionKPIs 0 0 None 0 /\
  risk_by_school [] = [] /\
  predictions_page Q mean_fit mean_predict sample_df no_school_criteria =
    Raise ValueError.
Proof.
  apply (empty_cohort_behaviour Q mean_fit mean_predict sample_df
           no_school_criteria ValueError); reflexivity.
Defined.

(** C6 fails on the code: with no school selected the cohort is empty,
    and the Overview page reports NaN, not zero, for the mean grade and
    for the at-risk percentage; no step of the Predictions page is
    skipped, so that with a regressor that rejects an empty training set
    the page raises. *)
Lemma empty_cohort_not_graceful :
  filtered sample_df no_school_criteria = [] /\
  avg_grade (overview_kpis (filtered sample_df no_school_criteria)) = None /\
  at_risk_pct (overview_kpis (filtered sample_df no_school_criteria)) = None /\
  ~ Qeq_opt
      (avg_grade (overview_kpis (filtered sample_df no_school_criteria)))
      (Some 0) /\
  predictions_page Q mean_fit mean_predict sample_df no_school_criteria =
    Raise ValueError.
Proof.
  repeat split; try reflexivity. intros H. exact H.
Qed.

(** The Overview scenario: three records with final grades 8, 12 and 9,
    all kept by the filter, give 3 students and two thirds at risk. *)
Example overview_scenario :
  filtered sample_df (mkCriteria
                        [Some "Gabriel Pereira"; Some "Mousinho da Silveira"]
                        ["F"; "M"] 1) = sample_df /\
  total_students (overview_kpis sample_df) = 3%nat /\
  Qeq_opt (at_risk_pct (overview_kpis sample_df)) (Some (200 # 3)).
Proof. repeat split. Qed.


(** * Further properties of the pages *)

(** ** Risk score and flag *)

(** X1. The risk probability is always a number between 0 and 1, on both
    paths, and a prediction is flagged at risk exactly when its risk
    probability is positive. *)
Theorem risk_probability_range (p : Q) :
  0 <= risk_probability p <= 1 /\
  0 <= risk_prob p <= 1 /\
  (at_risk p = true <-> 0 < risk_probability p) /\
  (at_risk p = true <-> 0 < risk_prob p).
Proof.
  assert (Heq := paths_agree p).
  assert (Hrange : 0 <= risk_probability p <= 1 /\
                   (p < 10 <-> 0 < risk_probability p)).
  { destruct (risk_probability_cases p) as [[Hp E]|[[Hp E]|[Hp E]]];
      rewrite E; (split; [split; qlra | split; intros H; qlra]). }
  destruct Hrange as [Hr Hiff].
  split; [exact Hr|].
  split; [rewrite <- Heq; exact Hr|].
  rewrite at_risk_true.
  split; [exact Hiff|]. rewrite <- Heq. exact Hiff.
Qed.

Lemma high_risk_is_at_risk (p : Q) :
  Qltb (risk_probability p) (7 # 10) = false -> at_risk p = true.
Proof.
  intros H. apply Qltb_false in H. apply at_risk_true.
  destruct (risk_probability_cases p) as [[Hp E]|[[Hp E]|[Hp E]]];
    rewrite E in H; qlra.
Qed.

Lemma filter_length_implies {A : Type} (f g : A -> bool) (l : list A) :
  (forall x, In x l -> f x = true -> g x = true) ->
  (List.length (List.filter f l) <= List.length (List.filter g l))%nat.
Proof.
  induction l as [|x l IH]; intros H; simpl; [lia|].
  assert (IH' := IH (fun y Hy => H y (or_intror Hy))).
  destruct (f x) eqn:Ef.
  - rewrite (H x (or_introl eq_refl) Ef). simpl. lia.
  - destruct (g x); simpl; lia.
Qed.

(** X2. On the assessed cohort every high-risk case (risk probability of
    at least 0.7) is an at-risk student, so that the three counters of
    the KPI row are ordered: high-risk cases, at-risk students, total. *)
Theorem kpi_counts_ordered (rows : list (StudentRecord * Q)) :
  (p_high_risk_count (prediction_kpis (assess rows)) <=
   p_at_risk_count (prediction_kpis (assess rows)))%nat /\
  (p_at_risk_count (prediction_kpis (assess rows)) <=
   p_total_students (prediction_kpis (assess rows)))%nat.
Proof.
  unfold prediction_kpis. cbn [p_high_risk_count p_at_risk_count
                                 p_total_students].
  split; [|apply filter_length_le].
  apply filter_length_implies. intros a Ha Hhigh.
  unfold assess in Ha. apply in_map_iff in Ha. destruct Ha as [rp [<- _]].
  cbn [a_risk_probability a_at_risk] in *.
  apply high_risk_is_at_risk. apply negb_true_iff. exact Hhigh.
Qed.

(** ** Key performance indicators *)

Lemma inject_Z_nat_pos {A : Type} (l : list A) :
  l <> [] -> 0 < inject_Z (Z.of_nat (List.length l)).
Proof.
  intros H. destruct l as [|x l]; [congruence|].
  change 0 with (inject_Z 0). rewrite <- Zlt_Qlt. cbn [List.length]. lia.
Qed.

(** The sum of a series lies between its length times a lower bound and
    its length times an upper bound of its entries. *)
Lemma series_sum_bounds (col : list Q) (lo hi : Q) :
  (forall x, In x col -> lo <= x <= hi) ->
  lo * inject_Z (Z.of_nat (List.length col)) <= series_sum col /\
  series_sum col <= hi * inject_Z (Z.of_nat (List.length col)).
Proof.
  induction col as [|x col IH]; intros H.
  - cbn [List.length series_sum fold_right].
    change (inject_Z (Z.of_nat 0)) with 0.
    rewrite !Qmult_0_r. split; apply Qle_refl.
  - destruct (IH (fun y Hy => H y (or_intror Hy))) as [IHlo IHhi].
    destruct (H x (or_introl eq_refl)) as [Hlo Hhi].
    cbn [List.length series_sum fold_right]. fold (series_sum col).
    rewrite inject_Z_succ, !Qmult_plus_distr_r, !Qmult_1_r.
    split; lra.
Qed.

(** The mean of a non-empty series lies between the bounds of its
    entries. *)
Lemma series_mean_bounds (col : list Q) (lo hi : Q) :
  col <> [] ->
  (forall x, In x col -> lo <= x <= hi) ->
  exists m, series_mean col = Some m /\ lo <= m <= hi.
Proof.
  intros Hne H.
  assert (Hpos := inject_Z_nat_pos col Hne).
  destruct (series_sum_bounds col lo hi H) as [Hlo Hhi].
  exists (series_sum col / inject_Z (Z.of_nat (List.length col))). split.
  - destruct col; [congruence | reflexivity].
  - split.
    + apply Qle_shift_div_l; assumption.
    + apply Qle_shift_div_r; assumption.
Qed.

(** X3. On a non-empty cohort the Overview page shows the number of
    records, a mean final grade that lies between any two bounds of the
    final grades, and an at-risk percentage between 0 and 100 that is the
    share of records with a final grade below 10. *)
Theorem overview_kpis_bounds (cohort : list StudentRecord) (lo hi : Z) :
  cohort <> [] ->
  (forall r, In r cohort -> (lo <= G3 r <= hi)%Z) ->
  total_students (overview_kpis cohort) = List.length cohort /\
  (exists avg,
      avg_grade (overview_kpis cohort) = Some avg /\
      inject_Z lo <= avg <= inject_Z hi) /\
  (exists pct,
      at_risk_pct (overview_kpis cohort) = Some pct /\
      0 <= pct <= 100 /\
      pct * inject_Z (Z.of_nat (List.length cohort)) ==
      100 * inject_Z (Z.of_nat
                        (List.length
                           (List.filter (fun r => (G3 r <? 10)%Z) cohort)))).
Proof.
  intros Hne Hbounds. unfold overview_kpis.
  cbn [total_students avg_grade at_risk_pct].
  split; [reflexivity|]. split.
  - apply series_mean_bounds.
    + destruct cohort; [congruence | discriminate].
    + intros x Hx. rewrite map_map in Hx. apply in_map_iff in Hx.
      destruct Hx as [r [<- Hr]]. rewrite <- !Zle_Qle. apply Hbounds. exact Hr.
  - unfold series_lt. rewrite (map_map G3 (fun x => (x <? 10)%Z)).
    destruct (mean_flags (fun r => (G3 r <? 10)%Z) cohort Hne)
      as [rate [Hmean [[H0 H1] Hshare]]].
    exists (rate * 100). rewrite Hmean. cbn [times_100 option_map].
    split; [reflexivity|]. split; [split; lra|].
    rewrite <- Hshare. ring.
Qed.

Lemma overview_kpis_bounds_witness :
  total_students (overview_kpis sample_df) = List.length sample_df /\
  (exists avg,
      avg_grade (overview_kpis sample_df) = Some avg /\
      inject_Z 0 <= avg <= inject_Z 20) /\
  (exists pct,
      at_risk_pct (overview_kpis sample_df) = Some pct /\
      0 <= pct <= 100 /\
      pct * inject_Z (Z.of_nat (List.length sample_df)) ==
      100 * inject_Z (Z.of_nat
                        (List.length
                           (List.filter (fun r => (G3 r <? 10)%Z)
                              sample_df)))).
Proof.
  apply (overview_kpis_bounds sample_df 0 20).
  - discriminate.
  - intros r Hr. simpl in Hr.
    destruct Hr as [<-|[<-|[<-|[]]]]; simpl; lia.
Defined.

(** X4. On the Predictions page the at-risk percentage is NaN exactly
    when the cohort is empty; otherwise it is a number between 0 and 100,
    the share of at-risk rows. *)
Theorem prediction_pct_range (rows : list Assessed) :
  (p_at_risk_pct (prediction_kpis rows) = None <-> rows = []) /\
  (forall pct,
      p_at_risk_pct (prediction_kpis rows) = Some pct ->
      0 <= pct <= 100 /\
      pct * inject_Z (Z.of_nat (p_total_students (prediction_kpis rows))) ==
      100 * inject_Z (Z.of_nat (p_at_risk_count (prediction_kpis rows)))).
Proof.
  unfold prediction_kpis.
  cbn [p_at_risk_pct p_total_students p_at_risk_count].
  assert (Hle := filter_length_le a_at_risk rows).
  assert (Hnil := length_zero_iff_nil rows).
  remember (List.length (List.filter a_at_risk rows)) as k eqn:Ek.
  remember (List.length rows) as n eqn:En.
  clear Ek En. destruct n as [|n'].
  - split; [split; [intros _; apply Hnil; reflexivity | reflexivity]|].
    discriminate.
  - split.
    + split; [discriminate|]. intros H. apply Hnil in H. discriminate.
    + intros pct Hpct. injection Hpct as <-.
      change (Z.pos (Pos.of_succ_nat n')) with (Z.of_nat (S n')).
      assert (Hpos : 0 < inject_Z (Z.of_nat (S n'))).
      { change 0 with (inject_Z 0). rewrite <- Zlt_Qlt. lia. }
      assert (Hk := inject_Z_nat_le _ _ Hle).
      assert (Hnn := inject_Z_nat_nonneg k).
      set (qn := inject_Z (Z.of_nat (S n'))) in *.
      set (qk := inject_Z (Z.of_nat k)) in *.
      assert (Hq : 0 <= qk / qn <= 1).
      { split.
        - apply Qle_shift_div_l; [exact Hpos | lra].
        - apply Qle_shift_div_r; [exact Hpos | lra]. }
      split.
      * remember (qk / qn) as share eqn:Eshare. clear Eshare.
        split; lra.
      * field. intros H0. rewrite H0 in Hpos. discriminate.
Qed.

(** ** Filter engine: composition *)

Lemma filter_idempotent {A : Type} (f : A -> bool) (l : list A) :
  List.filter f (List.filter f l) = List.filter f l.
Proof.
  induction l as [|x l IH]; simpl; [reflexivity|].
  destruct (f x) eqn:E; simpl; rewrite ?E, IH; reflexivity.
Qed.

Lemma filter_commutes {A : Type} (f g : A -> bool) (l : list A) :
  List.filter f (List.filter g l) = List.filter g (List.filter f l).
Proof.
  induction l as [|x l IH]; simpl; [reflexivity|].
  destruct (f x) eqn:Ef, (g x) eqn:Eg; simpl; rewrite ?Ef, ?Eg, IH;
    reflexivity.
Qed.

Lemma filter_stricter {A : Type} (f g : A -> bool) (l : list A) :
  (forall x, f x = true -> g x = true) ->
  Subseq (List.filter f l) (List.filter g l) /\
  List.filter f (List.filter g l) = List.filter f l.
Proof.
  intros H. induction l as [|x l [IHs IHe]]; simpl.
  - split; [constructor | reflexivity].
  - destruct (f x) eqn:Ef.
    + rewrite (H x Ef). simpl. rewrite Ef, IHe.
      split; [constructor; exact IHs | reflexivity].
    + destruct (g x); simpl; rewrite ?Ef.
      * split; [constructor; exact IHs | exact IHe].
      * split; assumption.
Qed.

(** X5. Filtering is idempotent, two filters can be applied in either
    order, and the records left by two filters are those of the input
    that satisfy both criteria. *)
Theorem filter_composes (df : list StudentRecord) (c1 c2 : FilterCriteria) :
  filtered (filtered df c1) c1 = filtered df c1 /\
  filtered (filtered df c1) c2 = filtered (filtered df c2) c1 /\
  (forall r,
      In r (filtered (filtered df c1) c2) <->
      In r df /\ satisfies c1 r /\ satisfies c2 r).
Proof.
  rewrite !filtered_filter. unfold filter_spec. split; [|split].
  - apply filter_idempotent.
  - apply filter_commutes.
  - intros r. rewrite !filter_In, !satisfiesb_spec. tauto.
Qed.

Lemma stricter_satisfiesb (c1 c2 : FilterCriteria) (r : StudentRecord) :
  stricter c1 c2 -> satisfiesb c1 r = true -> satisfiesb c2 r = true.
Proof.
  intros [Hs [Hg Ht]]. rewrite !satisfiesb_spec.
  unfold satisfies. intros [H1 [H2 H3]].
  repeat split; [apply Hs; exact H1 | apply Hg; exact H2 | lia].
Qed.

(** X6. Narrowing the selections or raising the study-time threshold
    can only remove records: the result under the stricter criteria is a
    subsequence of the result under the looser ones, and it is what the
    stricter filter makes of the looser result. *)
Theorem filter_monotone (df : list StudentRecord) (c1 c2 : FilterCriteria) :
  stricter c1 c2 ->
  Subseq (filtered df c1) (filtered df c2) /\
  filtered (filtered df c2) c1 = filtered df c1 /\
  (List.length (filtered df c1) <= List.length (filtered df c2))%nat.
Proof.
  intros H. rewrite !filtered_filter. unfold filter_spec.
  destruct (filter_stricter (satisfiesb c1) (satisfiesb c2) df
              (fun r => stricter_satisfiesb c1 c2 r H)) as [Hs He].
  split; [exact Hs|]. split; [exact He|].
  apply filter_length_implies. intros r _. apply stricter_satisfiesb. exact H.
Qed.

Lemma filter_monotone_witness :
  Subseq (filtered sample_df one_school_criteria)
    (filtered sample_df sample_criteria) /\
  filtered (filtered sample_df sample_criteria) one_school_criteria =
    filtered sample_df one_school_criteria /\
  (List.length (filtered sample_df one_school_criteria) <=
   List.length (filtered sample_df sample_criteria))%nat.
Proof.
  apply (filter_monotone sample_df one_school_criteria sample_criteria).
  unfold stricter. simpl. repeat split.
  - intros l Hl. simpl in *. tauto.
  - intros g Hg. exact Hg.
  - lia.
Defined.

Lemma series_max_attained (col : list Z) (m : Z) :
  series_max col = Some m -> In m col.
Proof.
  revert m. induction col as [|x col IH]; intros m H; [discriminate|].
  simpl in H. destruct (series_max col) as [m'|].
  - injection H as <-. destruct (Z.max_spec x m') as [[_ ->]|[_ ->]].
    + right. apply IH. reflexivity.
    + left. reflexivity.
  - injection H as <-. left. reflexivity.
Qed.

(** X7. The slider cannot empty the cohort by itself: with every school
    label and every gender of the collection selected and a threshold
    that does not exceed the largest study time, at least one record
    passes the filter. *)
Theorem slider_keeps_a_record (df : list StudentRecord) (c : FilterCriteria)
    (highest : Z) :
  incl (unique label_eqb (map school_name df)) (selected_school c) ->
  incl (unique String.eqb (map sex df)) (selected_gender c) ->
  series_max (map studytime df) = Some highest ->
  (selected_studytime c <= highest)%Z ->
  filtered df c <> [].
Proof.
  intros Hs Hg Hmax Hle.
  apply series_max_attained in Hmax. apply in_map_iff in Hmax.
  destruct Hmax as [r [Hr Hin]].
  assert (Hkept : In r (filtered df c)).
  { rewrite filtered_filter. unfold filter_spec. apply filter_In.
    split; [exact Hin|]. apply satisfiesb_spec. unfold satisfies.
    repeat split.
    - apply Hs. apply (unique_In label_eqb label_eqb_eq).
      apply in_map. exact Hin.
    - apply Hg. apply (unique_In String.eqb String.eqb_eq).
      apply in_map. exact Hin.
    - lia. }
  intros E. rewrite E in Hkept. contradiction.
Qed.

Lemma slider_keeps_a_record_witness :
  filtered sample_df
    (mkCriteria [Some "Gabriel Pereira"; Some "Mousinho da Silveira"]
       ["F"; "M"] 3) <> [].
Proof.
  apply (slider_keeps_a_record sample_df _ 3).
  - intros l Hl. simpl in *. tauto.
  - intros g Hg. simpl in *. tauto.
  - reflexivity.
  - simpl. lia.
Defined.

(** ** The sidebar's defaults *)








Lemma unique_from_NoDup {A : Type} (eqb : A -> A -> bool)
    (eqb_eq : forall x y, eqb x y = true <-> x = y) (col seen : list A) :
  NoDup (unique_from eqb seen col).
Proof.
  revert seen. induction col as [|x col IH]; intros seen; simpl.
  - constructor.
  - destruct (existsb (eqb x) seen); [apply IH|].
    constructor; [|apply IH].
    intros H. apply (unique_from_In eqb eqb_eq) in H.
    destruct H as [_ H]. apply H. left. reflexivity.
Qed.

Lemma insert_sorted_HdRel (a s : string) (l : list string) :
  string_le a s -> HdRel string_le a l -> HdRel string_le a (insert_sorted s l).
Proof.
  intros Has Hl. destruct l as [|h t]; simpl.
  - constructor. exact Has.
  - destruct (String.leb s h); constructor; [exact Has|].
    inversion Hl. assumption.
Qed.

Lemma insert_sorted_Sorted (s : string) (l : list string) :
  Sorted string_le l -> Sorted string_le (insert_sorted s l).
Proof.
  induction l as [|h t IH]; intros Hl; simpl.
  - repeat constructor.
  - destruct (String.leb s h) eqn:E.
    + constructor; [exact Hl|]. constructor. exact E.
    + inversion Hl as [|? ? Ht Hh]. subst.
      constructor; [apply IH; exact Ht|].
      apply insert_sorted_HdRel; [|exact Hh].
      destruct (String.leb_total s h) as [H|H]; [congruence | exact H].
Qed.

Lemma sorted_strings_Sorted (l : list string) :
  Sorted string_le (sorted_strings l).
Proof.
  induction l as [|x l IH]; simpl; [constructor|].
  apply insert_sorted_Sorted. exact IH.
Qed.

Lemma insert_sorted_NoDup (s : string) (l : list string) :
  ~ In s l -> NoDup l -> NoDup (insert_sorted s l).
Proof.
  induction l as [|h t IH]; intros Hs Hl; simpl.
  - constructor; [tauto | constructor].
  - destruct (String.leb s h).
    + constructor; assumption.
    + inversion Hl as [|? ? Hh Ht]. subst. constructor.
      * rewrite insert_sorted_In. intros [->|H]; [|contradiction].
        apply Hs. left. reflexivity.
      * apply IH; [|exact Ht]. intros H. apply Hs. right. exact H.
Qed.

Lemma sorted_strings_NoDup (l : list string) :
  NoDup l -> NoDup (sorted_strings l).
Proof.
  induction l as [|x l IH]; intros H; simpl; [constructor|].
  inversion H as [|? ? Hx Hl]. subst.
  apply insert_sorted_NoDup; [|apply IH; exact Hl].
  rewrite sorted_strings_In. exact Hx.
Qed.





(** ** Data loader *)

(** X10. The school label and the school code of the what-if form are
    inverse to each other on the two known schools only: a label of the
    mapping goes back to itself, a code comes back from its label exactly
    when it is "GP" or "MS", and every other code has no label. *)
Theorem school_code_round_trip (code : string) (l : label) :
  (school_code (school_map code) = code <-> code = "GP" \/ code = "MS") /\
  (school_map code = None <-> code <> "GP" /\ code <> "MS") /\
  (school_map (school_code l) = l <->
   l = Some "Gabriel Pereira" \/ l = Some "Mousinho da Silveira").
Proof.
  split; [|split].
  - unfold school_map.
    destruct (String.eqb code "GP") eqn:E1.
    { apply String.eqb_eq in E1. subst. split; [auto | reflexivity]. }
    destruct (String.eqb code "MS") eqn:E2.
    { apply String.eqb_eq in E2. subst. split; [auto | reflexivity]. }
    apply String.eqb_neq in E1, E2. cbn. split.
    + intros H. right. symmetry. exact H.
    + intros [H|H]; contradiction.
  - unfold school_map.
    destruct (String.eqb code "GP") eqn:E1.
    { apply String.eqb_eq in E1. split; [discriminate | tauto]. }
    destruct (String.eqb code "MS") eqn:E2.
    { apply String.eqb_eq in E2. split; [discriminate | tauto]. }
    apply String.eqb_neq in E1, E2. tauto.
  - unfold school_code.
    destruct (label_eqb l (Some "Gabriel Pereira")) eqn:E.
    + apply label_eqb_eq in E. subst. split; [auto | reflexivity].
    + cbn. split; [intros <-; auto|].
      intros [H | H]; subst l; [discriminate E | reflexivity].
Qed.

Lemma chars_replace (old new : ascii) (s : string) :
  chars (str_replace_char old new s) =
  map (fun ch => if Ascii.eqb ch old then new else ch) (chars s).
Proof.
  induction s as [|ch s IH]; simpl; [reflexivity|].
  rewrite IH. reflexivity.
Qed.

Lemma replace_removes (old new : ascii) (s : string) :
  new <> old -> ~ In old (chars (str_replace_char old new s)).
Proof.
  intros Hne H. rewrite chars_replace in H. apply in_map_iff in H.
  destruct H as [ch [E _]].
  destruct (Ascii.eqb ch old) eqn:Ech.
  - contradiction.
  - apply Ascii.eqb_neq in Ech. congruence.
Qed.

Lemma replace_keeps_out (old new other : ascii) (s : string) :
  new <> other -> ~ In other (chars s) ->
  ~ In other (chars (str_replace_char old new s)).
Proof.
  intros Hne Hs H. rewrite chars_replace in H. apply in_map_iff in H.
  destruct H as [ch [E Hch]].
  destruct (Ascii.eqb ch old); [congruence|]. subst. contradiction.
Qed.

Lemma replace_absent (old new : ascii) (s : string) :
  ~ In old (chars s) -> str_replace_char old new s = s.
Proof.
  induction s as [|ch s IH]; intros H; simpl; [reflexivity|].
  simpl in H. destruct (Ascii.eqb ch old) eqn:E.
  - apply Ascii.eqb_eq in E. tauto.
  - rewrite IH by tauto. reflexivity.
Qed.

Lemma replace_length (old new : ascii) (s : string) :
  String.length (str_replace_char old new s) = String.length s.
Proof.
  induction s as [|ch s IH]; simpl; [reflexivity|].
  rewrite IH. reflexivity.
Qed.

(** X11. A renamed column name holds neither a space nor a hyphen and is
    as long as the original; renaming again changes nothing, and a name
    without space and hyphen is left as it is. *)
Theorem rename_column_clean (c : string) :
  ~ In " "%char (chars (rename_column c)) /\
  ~ In "-"%char (chars (rename_column c)) /\
  String.length (rename_column c) = String.length c /\
  rename_column (rename_column c) = rename_column c /\
  (~ In " "%char (chars c) -> ~ In "-"%char (chars c) -> rename_column c = c).
Proof.
  assert (Hspace : ~ In " "%char (chars (rename_column c))).
  { unfold rename_column. apply replace_keeps_out; [discriminate|].
    apply replace_removes. discriminate. }
  assert (Hdash : ~ In "-"%char (chars (rename_column c))).
  { unfold rename_column. apply replace_removes. discriminate. }
  assert (Hid : forall s,
             ~ In " "%char (chars s) -> ~ In "-"%char (chars s) ->
             rename_column s = s).
  { intros s H1 H2. unfold rename_column.
    rewrite (replace_absent " " "_" s H1). apply replace_absent. exact H2. }
  split; [exact Hspace|]. split; [exact Hdash|]. split.
  - unfold rename_column. rewrite !replace_length. reflexivity.
  - split; [apply Hid; assumption | apply Hid].
Qed.

Example rename_column_sample :
  rename_column "family size-raw" = "family_size_raw".
Proof. reflexivity. Qed.

(** ** Feature encoder: shape of the encoded frames *)

Lemma dummies_1d_lengths (name : string) (values : list (option string)) :
  Forall (fun nc => column_length (snd nc) = List.length values /\
                    is_object (snd nc) = false)
    (dummies_1d name values).
Proof.
  unfold dummies_1d. apply Forall_forall. intros nc H.
  apply in_map_iff in H. destruct H as [level [<- _]]. cbn.
  split; [apply length_map | reflexivity].
Qed.

Lemma passthrough_shape (n : nat) (l : list (string * column)) :
  Forall (fun nc => column_length (snd nc) = n) l ->
  Forall (fun nc => column_length (snd nc) = n /\ is_object (snd nc) = false)
    (passthrough l).
Proof.
  induction l as [|[name c] l IH]; intros H; simpl; [constructor|].
  apply Forall_cons_iff in H. destruct H as [Hc Hl].
  destruct c; try (constructor; [split; [exact Hc | reflexivity]|]);
    apply IH; exact Hl.
Qed.

Lemma all_dummies_shape (n : nat) (l : list (string * column)) :
  Forall (fun nc => column_length (snd nc) = n) l ->
  Forall (fun nc => column_length (snd nc) = n /\ is_object (snd nc) = false)
    (all_dummies l).
Proof.
  induction l as [|[name c] l IH]; intros H; simpl; [constructor|].
  apply Forall_cons_iff in H. destruct H as [Hc Hl].
  destruct c; try (apply IH; exact Hl).
  apply Forall_app. split; [|apply IH; exact Hl].
  cbn in Hc. rewrite <- Hc. apply dummies_1d_lengths.
Qed.

(** X12. One-hot encoding keeps a frame well formed: the encoded frame
    has the same number of rows, each of its columns has one entry per
    row, and none of its columns is an object column any more. *)
Theorem get_dummies_well_formed (f : Frame) :
  well_formed f ->
  nrows (get_dummies f) = nrows f /\
  well_formed (get_dummies f) /\
  forallb (fun nc => negb (is_object (snd nc))) (cols (get_dummies f)) = true.
Proof.
  intros H. unfold well_formed in *. unfold get_dummies. cbn [nrows cols].
  assert (Hshape :
            Forall (fun nc => column_length (snd nc) = nrows f /\
                              is_object (snd nc) = false)
              (passthrough (cols f) ++ all_dummies (cols f))).
  { apply Forall_app. split;
      [apply passthrough_shape | apply all_dummies_shape]; exact H. }
  split; [reflexivity|]. split.
  - eapply Forall_impl; [|exact Hshape]. intros nc [Hlen _]. exact Hlen.
  - apply forallb_forall. intros nc Hnc.
    rewrite Forall_forall in Hshape. destruct (Hshape nc Hnc) as [_ Hobj].
    rewrite Hobj. reflexivity.
Qed.

Lemma features_well_formed (cohort : list StudentRecord) :
  well_formed (features cohort).
Proof.
  unfold well_formed, features. cbn [cols nrows].
  repeat constructor; cbn; apply length_map.
Qed.

Lemma get_dummies_well_formed_witness :
  nrows (X_encoded sample_df) = nrows (features sample_df) /\
  well_formed (X_encoded sample_df) /\
  forallb (fun nc => negb (is_object (snd nc))) (cols (X_encoded sample_df))
  = true.
Proof.
  apply (get_dummies_well_formed (features sample_df)).
  apply features_well_formed.
Defined.

Lemma nth_map_flag {A : Type} (g : A -> bool) (l : list A) (k : nat) :
  nth k (map g l) false =
  match nth_error l k with
  | Some v => g v
  | None => false
  end.
Proof.
  revert k. induction l as [|x l IH]; intros [|k]; simpl; auto.
Qed.

Lemma filter_map_length {A B : Type} (p : B -> bool) (F : A -> B)
    (l : list A) :
  List.length (List.filter p (map F l)) =
  List.length (List.filter (fun x => p (F x)) l).
Proof.
  induction l as [|x l IH]; simpl; [reflexivity|].
  destruct (p (F x)); simpl; rewrite IH; reflexivity.
Qed.

Lemma count_absent (s : string) (l : list string) :
  ~ In s l -> List.filter (String.eqb s) l = [].
Proof.
  induction l as [|h t IH]; intros H; simpl; [reflexivity|].
  destruct (String.eqb s h) eqn:E.
  - apply String.eqb_eq in E. subst. exfalso. apply H. left. reflexivity.
  - apply IH. intros Hin. apply H. right. exact Hin.
Qed.

Lemma count_once (s : string) (l : list string) :
  NoDup l -> In s l -> List.length (List.filter (String.eqb s) l) = 1%nat.
Proof.
  induction l as [|h t IH]; intros Hnd Hin; [contradiction|].
  inversion Hnd as [|? ? Hh Ht]. subst. simpl.
  destruct (String.eqb s h) eqn:E.
  - apply String.eqb_eq in E. subst. simpl.
    rewrite (count_absent h t Hh). reflexivity.
  - apply String.eqb_neq in E. destruct Hin as [->|Hin]; [congruence|].
    apply IH; assumption.
Qed.

(** The number of indicator columns of one encoded column that are set
    at row [k]. *)
Lemma indicators_set (name : string) (values : list (option string))
    (k : nat) :
  List.length
    (List.filter (fun nc => flag_at k (snd nc)) (dummies_1d name values)) =
  match nth_error values k with
  | Some (Some s) =>
      List.length
        (List.filter (String.eqb s)
           (tl (sorted_strings (unique String.eqb (dropna values)))))
  | _ => 0%nat
  end.
Proof.
  unfold dummies_1d. rewrite filter_map_length. cbn [snd flag_at].
  destruct (nth_error values k) as [[s|]|] eqn:E.
  - f_equal. apply filter_ext. intros level.
    rewrite nth_map_flag. unfold label. rewrite E. reflexivity.
  - rewrite (filter_none (fun level => nth k _ false)); [reflexivity|].
    intros level. rewrite nth_map_flag. unfold label. rewrite E. reflexivity.
  - rewrite (filter_none (fun level => nth k _ false)); [reflexivity|].
    intros level. rewrite nth_map_flag. unfold label. rewrite E. reflexivity.
Qed.

Lemma levels_NoDup (values : list (option string)) :
  NoDup (sorted_strings (unique String.eqb (dropna values))).
Proof.
  apply sorted_strings_NoDup. apply (unique_from_NoDup String.eqb String.eqb_eq).
Qed.

(** X13. The indicators of one categorical column are one-hot with a
    reference level: at every row at most one indicator is set; none is
    set when the value is missing or is the first level in sorted order,
    and exactly one is set for any other value. *)
Theorem dummies_one_hot (name : string) (values : list (option string))
    (k : nat) :
  (set_at name values k <= 1)%nat /\
  (nth_error values k = Some None -> set_at name values k = 0%nat) /\
  (forall s, nth_error values k = Some (Some s) ->
             (hd_error (levels_of values) = Some s ->
              set_at name values k = 0%nat) /\
             (hd_error (levels_of values) <> Some s ->
              set_at name values k = 1%nat)).
Proof.
  unfold set_at, levels_of. rewrite indicators_set.
  assert (Hnd := levels_NoDup values).
  assert (Hmem : forall s, nth_error values k = Some (Some s) ->
                           In s (sorted_strings
                                   (unique String.eqb (dropna values)))).
  { intros s E. apply sorted_strings_In.
    apply (unique_In String.eqb String.eqb_eq). apply dropna_In.
    apply (nth_error_In _ _ E). }
  destruct (sorted_strings (unique String.eqb (dropna values)))
    as [|ref rest] eqn:Elev.
  - destruct (nth_error values k) as [[s|]|] eqn:E.
    + destruct (Hmem s eq_refl).
    + split; [lia|]. split; [reflexivity | discriminate].
    + split; [lia|]. split; discriminate.
  - inversion Hnd as [|? ? Href Hrest]. subst. cbn [tl hd_error].
    destruct (nth_error values k) as [[s|]|] eqn:E.
    + destruct (Hmem s eq_refl) as [Hs|Hin].
      * subst s. rewrite (count_absent ref rest Href). cbn [List.length].
        split; [lia|]. split; [discriminate|].
        intros s' Es'. injection Es' as <-.
        split; [reflexivity | congruence].
      * rewrite (count_once s rest Hrest Hin).
        split; [lia|]. split; [discriminate|].
        intros s' Es'. injection Es' as <-. split; [|reflexivity].
        intros Hhd. injection Hhd as ->. contradiction.
    + split; [lia|]. split; [reflexivity | discriminate].
    + split; [lia|]. split; discriminate.
Qed.

(** ** Feature encoder: alignment *)

Lemma student_expansion_numeric (i j : FormInput) :
  numeric_fields i = numeric_fields j ->
  student_expansion i = student_expansion j.
Proof.
  intros H. rewrite !student_expansion_value.
  unfold numeric_fields in H. injection H as -> -> -> -> -> ->. reflexivity.
Qed.

(** X14. The what-if prediction does not depend on the gender and the
    school entered in the form: two forms with the same six numeric
    fields are aligned to the same vector and get the same assessment,
    and every column of the schema other than the six numeric ones is
    zero in that vector. *)
Theorem what_if_ignores_gender_and_school (Model : Type)
    (rf_predict : Model -> Frame -> list Q) (rf : Model) (X : Frame)
    (i j : FormInput) (schema : list string) :
  numeric_fields i = numeric_fields j ->
  align_encode i schema = align_encode j schema /\
  predict_student Model rf_predict rf X i =
    predict_student Model rf_predict rf X j /\
  exists v,
    align_encode i schema = Ok v /\
    forall name,
      In name schema ->
      ~ In name ["studytime"; "absences"; "G1"; "G2"; "failures"; "health"] ->
      get_column name (cols v) = Some (IntCol [0%Z]).
Proof.
  intros H. apply student_expansion_numeric in H.
  split; [unfold align_encode; rewrite H; reflexivity|].
  split; [unfold predict_student, align_encode; rewrite H; reflexivity|].
  eexists. split; [apply align_encode_value|].
  intros name Hin Hout. cbn [cols]. rewrite get_column_realigned.
  apply existsb_string_In in Hin. rewrite Hin. f_equal.
  unfold pick.
  rewrite (proj2 (get_column_None name (cols (student_expansion i))));
    [reflexivity|].
  rewrite student_expansion_value. exact Hout.
Qed.

Lemma what_if_ignores_gender_and_school_witness :
  align_encode sample_form (columns (X_encoded sample_df)) =
    align_encode unknown_school_form (columns (X_encoded sample_df)) /\
  predict_student Q mean_predict 10 (X_encoded sample_df) sample_form =
    predict_student Q mean_predict 10 (X_encoded sample_df)
      unknown_school_form /\
  exists v,
    align_encode sample_form (columns (X_encoded sample_df)) = Ok v /\
    forall name,
      In name (columns (X_encoded sample_df)) ->
      ~ In name ["studytime"; "absences"; "G1"; "G2"; "failures"; "health"] ->
      get_column name (cols v) = Some (IntCol [0%Z]).
Proof.
  apply (what_if_ignores_gender_and_school Q mean_predict 10
           (X_encoded sample_df) sample_form unknown_school_form).
  reflexivity.
Defined.



(** ** Predictions page *)

Lemma assess_records (rows : list (StudentRecord * Q)) :
  map a_record (assess rows) = map fst rows /\
  map a_predicted_G3 (assess rows) = map snd rows.
Proof.
  unfold assess. rewrite !map_map. split; reflexivity.
Qed.

Lemma combine_fst_snd {A B : Type} (l : list A) (l' : list B) :
  List.length l' = List.length l ->
  map fst (combine l l') = l /\ map snd (combine l l') = l'.
Proof.
  revert l'. induction l as [|x l IH]; intros [|y l'] H; simpl in *;
    try discriminate; [split; reflexivity|].
  injection H as H. destruct (IH l' H) as [-> ->]. split; reflexivity.
Qed.

(** X16. When the Predictions page succeeds, its rows are the filtered
    records in their order, each with the prediction that the fitted
    model returned for it and with the risk probability and the flag
    derived from that prediction; the total is the size of the cohort. *)
Theorem predictions_page_rows (Model : Type)
    (rf_fit : Frame -> list Z -> result Model)
    (rf_predict : Model -> Frame -> list Q)
    (df : list StudentRecord) (c : FilterCriteria) (report : PageReport) :
  predictions_page Model rf_fit rf_predict df c = Ok report ->
  map a_record (report_rows report) = filtered df c /\
  (exists rf,
      rf_fit (X_encoded (filtered df c)) (map G3 (filtered df c)) = Ok rf /\
      map a_predicted_G3 (report_rows report) =
        rf_predict rf (X_encoded (filtered df c))) /\
  (forall a,
      In a (report_rows report) ->
      a_risk_probability a = risk_probability (a_predicted_G3 a) /\
      a_at_risk a = at_risk (a_predicted_G3 a)) /\
  p_total_students (report_kpis report) = List.length (filtered df c) /\
  report_by_school report = risk_by_school (report_rows report).
Proof.
  unfold predictions_page, bind, set_predicted_G3. intros H.
  destruct (rf_fit _ _) as [rf|] eqn:Efit; [|discriminate].
  destruct (Nat.eqb _ _) eqn:Elen; [|discriminate].
  apply Nat.eqb_eq in Elen. injection H as <-.
  cbn [report_rows report_kpis report_by_school].
  destruct (combine_fst_snd _ _ Elen) as [Hfst Hsnd].
  destruct (assess_records
              (combine (filtered df c)
                 (rf_predict rf (X_encoded (filtered df c))))) as [Hr Hp].
  split; [rewrite Hr; exact Hfst|].
  split; [exists rf; split; [reflexivity | rewrite Hp; exact Hsnd]|].
  split.
  - intros a Ha. unfold assess in Ha. apply in_map_iff in Ha.
    destruct Ha as [rp [<- _]]. split; reflexivity.
  - split; [|reflexivity]. unfold prediction_kpis. cbn [p_total_students].
    unfold assess. rewrite length_map, length_combine, Elen.
    apply Nat.min_id.
Qed.

Lemma predictions_page_rows_witness :
  exists report,
    predictions_page Q mean_fit mean_predict sample_df sample_criteria =
      Ok report /\
    map a_record (report_rows report) = filtered sample_df sample_criteria /\
    p_total_students (report_kpis report) =
      List.length (filtered sample_df sample_criteria).
Proof.
  destruct (predictions_page Q mean_fit mean_predict sample_df
              sample_criteria) as [report|e] eqn:E; [|discriminate E].
  exists report. split; [reflexivity|].
  destruct (predictions_page_rows Q mean_fit mean_predict sample_df
              sample_criteria report E) as [H1 [_ [_ [H2 _]]]].
  split; assumption.
Defined.


Example predictions_page_too_few :
  predictions_page Q any_fit no_predict sample_df sample_criteria =
  Raise ValueError.
Proof. reflexivity. Qed.

(** ** What-if assessment *)

Lemma risk_prob_facts (p : Q) :
  0 <= risk_prob p <= 1 /\ (p < 10 <-> 0 < risk_prob p).
Proof.
  destruct (risk_prob_cases p) as [[Hp E]|[[Hp E]|[Hp E]]];
    rewrite E; (split; [split; qlra | split; intros H; qlra]).
Qed.

(** X18. The what-if assessment can fail in one way only, with
    [IndexError] when the model returns no prediction for the aligned
    record. When it succeeds, the risk probability shown lies between 0
    and 1, equals the cohort's risk probability of the same predicted
    grade, and the verdict is "at risk" exactly when the predicted grade
    is below 10, which is exactly when the risk probability is
    positive. *)
Theorem predict_student_outcome (Model : Type)
    (rf_predict : Model -> Frame -> list Q) (rf : Model) (X : Frame)
    (i : FormInput) :
  (forall e,
      predict_student Model rf_predict rf X i = Raise e ->
      e = IndexError /\
      exists v, align_encode i (columns X) = Ok v /\ rf_predict rf v = []) /\
  (forall a,
      predict_student Model rf_predict rf X i = Ok a ->
      0 <= risk_prob_value a <= 1 /\
      risk_prob_value a == risk_probability (predicted_grade a) /\
      (shown_at_risk a = true <-> predicted_grade a < 10) /\
      (shown_at_risk a = true <-> 0 < risk_prob_value a)).
Proof.
  unfold predict_student, bind. rewrite align_encode_value.
  destruct (rf_predict rf _) as [|p rest] eqn:Ep.
  - split; [|discriminate]. intros e He. injection He as <-.
    split; [reflexivity|]. eexists. split; [reflexivity | exact Ep].
  - split; [discriminate|]. intros a Ha. injection Ha as <-.
    cbn [risk_prob_value predicted_grade shown_at_risk].
    destruct (risk_prob_facts p) as [Hr Hiff].
    split; [exact Hr|]. split; [symmetry; apply paths_agree|].
    rewrite at_risk_true. split; [reflexivity | exact Hiff].
Qed.

(** ** Aggregator: the groups *)

Lemma sum_nat_add {A : Type} (g h : A -> nat) (l : list A) :
  sum_nat (map (fun k => (g k + h k)%nat) l) =
  (sum_nat (map g l) + sum_nat (map h l))%nat.
Proof.
  induction l as [|x l IH]; simpl; [reflexivity|].
  unfold sum_nat in *. simpl. rewrite IH. lia.
Qed.

Lemma sum_nat_zero {A : Type} (l : list A) :
  sum_nat (map (fun _ => 0%nat) l) = 0%nat.
Proof. induction l as [|x l IH]; simpl; [reflexivity | exact IH]. Qed.

(** Among keys that do not repeat, a label matches one key when it is
    among them and none otherwise. *)
Lemma sum_nat_indicator (v : label) (keys : list string) :
  NoDup keys ->
  sum_nat (map (fun k => if label_eqb v (Some k) then 1%nat else 0%nat) keys) =
  match v with
  | Some s => if existsb (String.eqb s) keys then 1%nat else 0%nat
  | None => 0%nat
  end.
Proof.
  intros Hnd. destruct v as [s|]; [|apply sum_nat_zero].
  change (sum_nat
            (map (fun k => if String.eqb s k then 1%nat else 0%nat) keys) =
          if existsb (String.eqb s) keys then 1%nat else 0%nat).
  induction keys as [|k keys IH]; [reflexivity|].
  inversion Hnd as [|? ? Hk Hkeys]. subst.
  cbn [map existsb]. unfold sum_nat in *. cbn [fold_right].
  rewrite (IH Hkeys). destruct (String.eqb s k) eqn:E; [|reflexivity].
  apply String.eqb_eq in E. subst.
  destruct (existsb (String.eqb k) keys) eqn:Ex; [|reflexivity].
  apply existsb_string_In in Ex. contradiction.
Qed.

Lemma groups_count (p : Assessed -> bool) (keys : list string)
    (rows : list Assessed) :
  NoDup keys ->
  sum_nat
    (map (fun k => List.length (List.filter p (school_group rows k))) keys) =
  List.length
    (List.filter
       (fun a =>
          p a &&
          match school_name (a_record a) with
          | Some s => existsb (String.eqb s) keys
          | None => false
          end)
       rows).
Proof.
  intros Hnd. unfold school_group.
  induction rows as [|a rows IH].
  - simpl. apply sum_nat_zero.
  - cbn [List.filter].
    rewrite (map_ext
               (fun k =>
                  List.length
                    (List.filter p
                       (if label_eqb (school_name (a_record a)) (Some k)
                        then a :: List.filter
                               (fun a0 => label_eqb (school_name (a_record a0))
                                            (Some k)) rows
                        else List.filter
                               (fun a0 => label_eqb (school_name (a_record a0))
                                            (Some k)) rows)))
               (fun k =>
                  ((if label_eqb (school_name (a_record a)) (Some k)
                    then (if p a then 1 else 0) else 0) +
                   List.length
                     (List.filter p
                        (List.filter
                           (fun a0 => label_eqb (school_name (a_record a0))
                                        (Some k)) rows)))%nat)).
    2:{ intros k. destruct (label_eqb _ _); [|reflexivity].
        cbn [List.filter]. destruct (p a); reflexivity. }
    rewrite sum_nat_add, IH.
    destruct (p a) eqn:Ep.
    + rewrite (sum_nat_indicator (school_name (a_record a)) keys Hnd).
      cbn [andb].
      destruct (school_name (a_record a)) as [s|]; [|reflexivity].
      destruct (existsb (String.eqb s) keys); reflexivity.
    + rewrite (map_ext _ (fun _ => 0%nat))
        by (intros k; destruct (label_eqb _ _); reflexivity).
      rewrite sum_nat_zero. reflexivity.
Qed.

Lemma group_keys_NoDup (rows : list Assessed) : NoDup (group_keys rows).
Proof.
  unfold group_keys. apply sorted_strings_NoDup.
  apply (unique_from_NoDup String.eqb String.eqb_eq).
Qed.

(** X19. The aggregate has one row per school, in ascending order of
    the school names, and its groups partition the records that have a
    school label: the sizes of the groups add up to the number of
    labelled records, and the at-risk counts of the groups to the number
    of labelled at-risk records. *)
Theorem groups_partition (rows : list Assessed) :
  NoDup (map g_school_name (risk_by_school rows)) /\
  Sorted string_le (map g_school_name (risk_by_school rows)) /\
  sum_nat (map (group_count rows) (group_keys rows)) =
    List.length (List.filter has_label rows) /\
  sum_nat (map (group_at_risk rows) (group_keys rows)) =
    List.length (List.filter (fun a => a_at_risk a && has_label a) rows).
Proof.
  rewrite risk_by_school_keys.
  split; [apply group_keys_NoDup|].
  split; [apply sorted_strings_Sorted|].
  assert (Hkeys : forall a, In a rows ->
            match school_name (a_record a) with
            | Some s => existsb (String.eqb s) (group_keys rows)
            | None => false
            end = has_label a).
  { intros a Ha. unfold has_label.
    destruct (school_name (a_record a)) as [s|] eqn:E; [|reflexivity].
    cbn. apply existsb_string_In. apply group_keys_In.
    rewrite <- E. apply (in_map (fun a => school_name (a_record a))).
    exact Ha. }
  split.
  - unfold group_count.
    rewrite (map_ext _ (fun k => List.length
                                   (List.filter (fun _ => true)
                                      (school_group rows k)))).
    2:{ intros k. f_equal. symmetry. apply filter_all. reflexivity. }
    rewrite (groups_count (fun _ => true) _ rows (group_keys_NoDup rows)).
    f_equal. apply filter_ext_in. intros a Ha. cbn [andb].
    apply Hkeys. exact Ha.
  - unfold group_at_risk.
    rewrite (groups_count a_at_risk _ rows (group_keys_NoDup rows)).
    f_equal. apply filter_ext_in. intros a Ha. rewrite (Hkeys a Ha).
    reflexivity.
Qed.

(** ** Feature encoder: number of indicators *)




